(** * Mego: dispatch engine of [mego.go], embedded and checked against its specification

    The Go structs become records (one module per struct, so that the fields
    keep their Go names), the maps become [gmap]s, the methods of [*Engine]
    become functions that pass the engine along.  What the engine does to the
    outside (frames written to a connection, handlers invoked, registry
    look-ups) is collected in a trace of observations. *)

From Stdlib Require Import ZArith.
From stdpp Require Import base gmap list strings.

Open Scope string_scope.
Open Scope list_scope.
Open Scope Z_scope.

(** ** Status codes (const block of [mego.go]) *)

Definition StatusOK : Z := 0.
Definition StatusProcessing : Z := 1.
Definition StatusNoChanges : Z := 2.
Definition StatusFileNext : Z := 10.
Definition StatusFileAbort : Z := 11.
Definition StatusError : Z := 51.
Definition StatusFull : Z := 52.
Definition StatusExists : Z := 53.
Definition StatusInvalid : Z := 54.
Definition StatusNotFound : Z := 55.
Definition StatusNotAuthorized : Z := 56.
Definition StatusNoPermission : Z := 57.
Definition StatusUnimplemented : Z := 58.
Definition StatusTooManyRequests : Z := 59.
Definition StatusResourceExhausted : Z := 60.
Definition StatusBusy : Z := 61.
Definition StatusFileRetry : Z := 70.
Definition StatusFileEmpty : Z := 71.
Definition StatusFileTooLarge : Z := 72.

(** ** Errors ([var] block of [mego.go]) *)

Inductive error : Type :=
| ErrEventNotFound
| ErrChannelNotFound.

Definition Error (err : error) : string :=
  match err with
  | ErrEventNotFound => "the event doesn't exist"
  | ErrChannelNotFound => "the channel doesn't exist"
  end.

(** ** Dynamic values

    [interface{}] as a tagged value; [H] is [map[string]interface{}]. *)

Inductive Value : Type :=
| VNil
| VInt (n : Z)
| VString (s : string)
| VBool (b : bool).

#[global] Instance Value_eq_dec : EqDecision Value.
Proof. solve_decision. Defined.

Abbreviation H := (gmap string Value).

(** A [HandlerFunc] is a Go function value.  It is modelled as the address of
    the function; what the function does is looked up in a code table (the
    section variable [code] below).  This also breaks the cycle between
    [HandlerFunc] and [Context], which holds a slice of handlers. *)
Definition HandlerFunc : Type := nat.

(** ** The transport: [melody]

    [melody] is an external package.  Only what [mego.go] calls is modelled:
    a connection ([melody.Session]) with its key/value store and its HTTP
    request, and the framework object with the callbacks installed on it. *)

Module melody.

Record Session : Type := mkSession {
  conn : nat;                 (* identity of the connection *)
  Request : string;           (* the HTTP request that opened it *)
  Keys : gmap string Value
}.

(** [s.Set(key, value)] ([Set] is a keyword here, hence the prime) *)
Definition Set' (s : Session) (key : string) (value : Value) : Session :=
  {| conn := conn s; Request := Request s; Keys := <[key := value]> (Keys s) |}.

(** [s.Get(key)] *)
Definition Get (s : Session) (key : string) : option Value := Keys s !! key.

(** The functions of the engine that [Run] hands to melody. *)
Inductive message_callback : Type := engine_messageHandler.
Inductive session_callback : Type := engine_connectHandler.

(** [*melody.Melody], as far as [mego.go] sets it up: a callback that is
    [None] is melody's default, which does nothing.  [mego.go] never calls
    [HandleDisconnect], so the callback for a closed connection always is
    that default and has no field here. *)
Record Melody : Type := mkMelody {
  messageHandler : option message_callback;
  connectHandler : option session_callback
}.

Definition New : Melody :=
  {| messageHandler := None; connectHandler := None |}.

Definition HandleMessage (m : Melody) (fn : message_callback) : Melody :=
  {| messageHandler := Some fn; connectHandler := connectHandler m |}.

Definition HandleConnect (m : Melody) (fn : session_callback) : Melody :=
  {| messageHandler := messageHandler m; connectHandler := Some fn |}.

End melody.

(** ** Structs of [mego.go] *)

Module EngineOption.
Record t : Type := mk {
  MaxSize : Z;
  MaxChunkSize : Z;
  MaxFileSize : Z;
  MaxSessions : Z;
  CheckInterval : Z
}.
End EngineOption.

Module MethodOption.
Record t : Type := mk {
  MaxSize : Z;
  MaxChunkSize : Z;
  MaxFileSize : Z
}.
End MethodOption.

(** Modelled from the spec: the interface [ChunkProcessor] and its default
    implementation are named by [mego.go] but declared outside it.  The
    engine only stores a processor, so a processor is a tag here. *)
Inductive ChunkProcessor : Type :=
| DefaultChunkProcessor
| CustomChunkProcessor (tag : nat).

Module Method.
Record t : Type := mk {
  Name : string;
  Handlers : list HandlerFunc;
  Processor : option ChunkProcessor;
  Option : option MethodOption.t
}.
End Method.

(** The structs [Session], [Channel], [Event], [Request], [ResponseError],
    [Response] and [Context] are used by [mego.go] but declared outside it.
    Each record below has the fields that [mego.go] reads and writes, with
    the meaning that the data model of the specification gives them. *)

(** Modelled from the spec: [Session], the state of one live connection: its
    ID, its connection and its key/value state. *)
Module Session.
Record t : Type := mk {
  ID : string;
  websocket : nat;            (* the [*melody.Session], by connection *)
  Keys : H
}.
End Session.

(** Modelled from the spec: [Channel], the subscribed sessions of one
    channel, in the order in which [Emit] ranges over them.  The source
    holds references to the sessions; an entry here is the session as [Emit]
    reads it, of which [mego.go] uses only the connection, and that never
    changes once the session is made.  The [Keys] of an entry do not follow a
    later "MegoInitialize" of the session. *)
Module Channel.
Record t : Type := mk {
  Sessions : list Session.t
}.
End Channel.

(** Modelled from the spec: [Event], a name and the channels by name. *)
Module Event.
Record t : Type := mk {
  Name : string;
  Channels : gmap string Channel.t
}.
End Event.

(** Modelled from the spec: [Request], the decoded envelope of a frame:
    method name, correlation ID and the raw parameter payload. *)
Module Request.
Record t : Type := mk {
  Method : string;
  ID : Z;
  Params : list Byte.byte
}.
End Request.

(** Modelled from the spec: [ResponseError], the status code and the error
    message of a response. *)
Module ResponseError.
Record t : Type := mk {
  Code : Z;
  Message : string
}.
End ResponseError.

(** Modelled from the spec: [Response], the envelope that is encoded to a
    frame: correlation ID, status, event name and result. *)
Module Response.
Record t : Type := mk {
  ID : Z;
  Error : ResponseError.t;
  Event : string;
  Result : Value
}.
End Response.

(** Modelled from the spec: [Context], with the fields that the literal in
    [messageHandler] sets.  The cursor of the chain is kept in [RunState]. *)
Module Context.
Record t : Type := mk {
  Session : Session.t;
  Method : option Method.t;   (* [*Method], [None] is nil *)
  ID : Z;
  Request : string;
  data : list Byte.byte;
  handlers : list HandlerFunc
}.
End Context.

Module Engine.
Record t : Type := mk {
  Sessions : gmap string Session.t;
  Events : gmap string Event.t;
  Methods : gmap string Method.t;
  Option : option EngineOption.t;
  handlers : list HandlerFunc;
  noMethod : list HandlerFunc;
  websocket : option melody.Melody
}.
End Engine.

(** ** Constructors *)

(** [New] *)
Definition New : Engine.t :=
  {| Engine.Sessions := ∅;
     Engine.Events := ∅;
     Engine.Methods := ∅;
     Engine.Option := None;
     Engine.handlers := [];
     Engine.noMethod := [];
     Engine.websocket := None |}.

(** [Default] *)
Definition Default : Engine.t :=
  {| Engine.Sessions := ∅;
     Engine.Events := ∅;
     Engine.Methods := ∅;
     Engine.Option := None;
     Engine.handlers := [];
     Engine.noMethod := [];
     Engine.websocket := None |}.

(** ** Assignments to one field of the engine

    The methods of [*Engine] assign to a field of the struct behind the
    pointer; here the engine is passed along and rebuilt. *)

Definition set_Sessions (v : gmap string Session.t) (e : Engine.t) : Engine.t :=
  {| Engine.Sessions := v;
     Engine.Events := Engine.Events e;
     Engine.Methods := Engine.Methods e;
     Engine.Option := Engine.Option e;
     Engine.handlers := Engine.handlers e;
     Engine.noMethod := Engine.noMethod e;
     Engine.websocket := Engine.websocket e |}.

Definition set_Events (v : gmap string Event.t) (e : Engine.t) : Engine.t :=
  {| Engine.Sessions := Engine.Sessions e;
     Engine.Events := v;
     Engine.Methods := Engine.Methods e;
     Engine.Option := Engine.Option e;
     Engine.handlers := Engine.handlers e;
     Engine.noMethod := Engine.noMethod e;
     Engine.websocket := Engine.websocket e |}.

Definition set_Methods (v : gmap string Method.t) (e : Engine.t) : Engine.t :=
  {| Engine.Sessions := Engine.Sessions e;
     Engine.Events := Engine.Events e;
     Engine.Methods := v;
     Engine.Option := Engine.Option e;
     Engine.handlers := Engine.handlers e;
     Engine.noMethod := Engine.noMethod e;
     Engine.websocket := Engine.websocket e |}.

Definition set_Option (v : option EngineOption.t) (e : Engine.t) : Engine.t :=
  {| Engine.Sessions := Engine.Sessions e;
     Engine.Events := Engine.Events e;
     Engine.Methods := Engine.Methods e;
     Engine.Option := v;
     Engine.handlers := Engine.handlers e;
     Engine.noMethod := Engine.noMethod e;
     Engine.websocket := Engine.websocket e |}.

Definition set_handlers (v : list HandlerFunc) (e : Engine.t) : Engine.t :=
  {| Engine.Sessions := Engine.Sessions e;
     Engine.Events := Engine.Events e;
     Engine.Methods := Engine.Methods e;
     Engine.Option := Engine.Option e;
     Engine.handlers := v;
     Engine.noMethod := Engine.noMethod e;
     Engine.websocket := Engine.websocket e |}.

Definition set_noMethod (v : list HandlerFunc) (e : Engine.t) : Engine.t :=
  {| Engine.Sessions := Engine.Sessions e;
     Engine.Events := Engine.Events e;
     Engine.Methods := Engine.Methods e;
     Engine.Option := Engine.Option e;
     Engine.handlers := Engine.handlers e;
     Engine.noMethod := v;
     Engine.websocket := Engine.websocket e |}.

Definition set_websocket (v : option melody.Melody) (e : Engine.t) : Engine.t :=
  {| Engine.Sessions := Engine.Sessions e;
     Engine.Events := Engine.Events e;
     Engine.Methods := Engine.Methods e;
     Engine.Option := Engine.Option e;
     Engine.handlers := Engine.handlers e;
     Engine.noMethod := Engine.noMethod e;
     Engine.websocket := v |}.

(** [sess.Keys = keys] *)
Definition set_Keys (keys : H) (sess : Session.t) : Session.t :=
  {| Session.ID := Session.ID sess;
     Session.websocket := Session.websocket sess;
     Session.Keys := keys |}.

(** [m.Processor = processor] *)
Definition set_Processor (p : option ChunkProcessor) (m : Method.t) : Method.t :=
  {| Method.Name := Method.Name m;
     Method.Handlers := Method.Handlers m;
     Method.Processor := p;
     Method.Option := Method.Option m |}.

(** ** Methods of [*Engine] that only touch the registries *)

(** [Run]: the callbacks handed to melody, and the port that is served.
    [http.ListenAndServe] itself is the transport and is not modelled. *)
Definition Run (e : Engine.t) (port : list string) : Engine.t * string :=
  let m := melody.New in
  let p := match port with
           | [] => ":5000"
           | p0 :: _ => p0
           end in
  let m := melody.HandleMessage m melody.engine_messageHandler in
  let m := melody.HandleConnect m melody.engine_connectHandler in
  (set_websocket (Some m) e, p).

(** [connectHandler]: [id] is the string that [uuid.NewV4()] produced. *)
Definition connectHandler (e : Engine.t) (s : melody.Session) (id : string)
  : Engine.t * melody.Session :=
  let s := melody.Set' s "ID" (VString id) in
  (set_Sessions
     (<[id := {| Session.ID := id;
                 Session.websocket := melody.conn s;
                 Session.Keys := ∅ |}]> (Engine.Sessions e)) e,
   s).

Definition HandleRequest (e : Engine.t) : Engine.t := e.

Definition HandleConnect (e : Engine.t) : Engine.t := e.

(** [HandleSubscribe]: the body is [return e], the handler is dropped. *)
Definition HandleSubscribe (e : Engine.t)
  (handler : string → string → Context.t → bool) : Engine.t := e.

(** [Use] *)
Definition Use (e : Engine.t) (handlers : list HandlerFunc) : Engine.t :=
  set_handlers (Engine.handlers e ++ handlers) e.

(** [Len] *)
Definition Len (e : Engine.t) : Z := Z.of_nat (size (Engine.Sessions e)).

(** [NoMethod] *)
Definition NoMethod (e : Engine.t) (handler : list HandlerFunc) : Engine.t :=
  set_noMethod handler e.

(** [Event]: the new event has a nil [Channels] map. *)
Definition Event (e : Engine.t) (name : string) : Engine.t :=
  set_Events (<[name := {| Event.Name := name; Event.Channels := ∅ |}]> (Engine.Events e)) e.

(** [Register] *)
Definition Register (e : Engine.t) (method : string) (handler : list HandlerFunc)
  : Engine.t * Method.t :=
  let m := {| Method.Name := method;
              Method.Handlers := handler;
              Method.Processor := None;
              Method.Option := None |} in
  (set_Methods (<[method := m]> (Engine.Methods e)) e, m).

(** [ReceiveWith]: [m] is the pointer that [Register] stored in [e.Methods],
    so the assignment to [m.Processor] shows in the registry as well. *)
Definition ReceiveWith (e : Engine.t) (method : string) (processor : ChunkProcessor)
  (handler : list HandlerFunc) : Engine.t * Method.t :=
  let '(e, m) := Register e method handler in
  let m := set_Processor (Some processor) m in
  (set_Methods (<[method := m]> (Engine.Methods e)) e, m).

(** [Receive] *)
Definition Receive (e : Engine.t) (method : string) (handler : list HandlerFunc)
  : Engine.t * Method.t :=
  ReceiveWith e method DefaultChunkProcessor handler.

(** [EmitMultiple] and [EmitFilter] return nil and do nothing else. *)
Definition EmitMultiple (e : Engine.t) (event : string) (result : Value)
  (sessions : list Session.t) : option error := None.

Definition EmitFilter (e : Engine.t) (event : string) (payload : Value)
  (filter : Session.t → bool) : option error := None.

(** ** What a handler does, and what the engine is seen to do *)

(** Modelled from the spec: the operations of [Context] that a handler calls
    are declared outside [mego.go].  A handler body is the sequence of its
    calls of them: answering the request with a status and a result, and
    handing over to the next handler of the chain. *)
Inductive Action : Type :=
| ActRespond (status : Z) (result : Value)
| ActNext.

#[global] Instance Action_eq_dec : EqDecision Action.
Proof. solve_decision. Defined.

Inductive Obs : Type :=
| ObsGetSession (id : string)                  (* [e.Sessions[id]] *)
| ObsGetMethod (name : string)                 (* [e.Methods[name]] *)
| ObsInvoke (index : nat) (h : HandlerFunc)    (* [ctx.handlers[index](ctx)] *)
| ObsWriteBinary (c : nat) (frame : list Byte.byte).  (* [WriteBinary] on connection [c] *)

Inductive panic : Type :=
| NilDereference
| TypeAssertion.

(** How a call of [messageHandler] ends.  [OutOfFuel] belongs to the model
    only: the handler chain is run with a step budget, and
    [messageHandler_fuel] shows that the budget is never used up. *)
Inductive Outcome : Type :=
| Returned (e : Engine.t) (tr : list Obs)
| Panicked (why : panic) (e : Engine.t) (tr : list Obs)
| OutOfFuel.

Definition trace_of (o : Outcome) : list Obs :=
  match o with
  | Returned _ tr | Panicked _ _ tr => tr
  | OutOfFuel => []
  end.

Definition map_engine (f : Engine.t → Engine.t) (o : Outcome) : Outcome :=
  match o with
  | Returned e tr => Returned (f e) tr
  | Panicked why e tr => Panicked why (f e) tr
  | OutOfFuel => OutOfFuel
  end.

Definition engine_of (o : Outcome) : option Engine.t :=
  match o with
  | Returned e _ | Panicked _ e _ => Some e
  | OutOfFuel => None
  end.

(** The handlers that ran, in the order in which they were entered. *)
Definition invoked (tr : list Obs) : list (nat * HandlerFunc) :=
  omap (λ o, match o with ObsInvoke i h => Some (i, h) | _ => None end) tr.

(** The frames that were written, with the connection they went to. *)
Definition written (tr : list Obs) : list (nat * list Byte.byte) :=
  omap (λ o, match o with ObsWriteBinary c f => Some (c, f) | _ => None end) tr.

(** The names that were looked up in the Method Registry. *)
Definition resolved (tr : list Obs) : list string :=
  omap (λ o, match o with ObsGetMethod n => Some n | _ => None end) tr.

(** The IDs that were looked up in the Session Registry. *)
Definition looked_up (tr : list Obs) : list string :=
  omap (λ o, match o with ObsGetSession n => Some n | _ => None end) tr.

(** State of a running chain: the cursor and the trace so far (newest last). *)
Record RunState : Type := mkRun {
  index : nat;
  trace : list Obs
}.

Definition log (o : Obs) (st : RunState) : RunState :=
  {| index := index st; trace := trace st ++ [o] |}.

Definition move (i : nat) (st : RunState) : RunState :=
  {| index := i; trace := trace st |}.

Section Dispatch.

(** The codec ([msgpack], an external package) and the code of the handlers. *)
Variable unmarshalRequest : list Byte.byte → Request.t + string.
Variable unmarshalKeys : list Byte.byte → H + string.
Variable marshal : Response.t → list Byte.byte.
Variable code : HandlerFunc → Context.t → list Action.

(** Modelled from the spec: [Session.write] is called by [Emit] but not
    declared in [mego.go]; it encodes the response and delivers it over the
    session's connection. *)
Definition write (v : Session.t) (resp : Response.t) : Obs :=
  ObsWriteBinary (Session.websocket v) (marshal resp).

(** Modelled from the spec: [Context.Respond] (used by [examples/basic]) is
    not declared in [mego.go]; given a status code and a result it encodes a
    response with the original correlation ID and delivers it over the owning
    session's connection. *)
Definition Respond (c : Context.t) (status : Z) (result : Value) : Obs :=
  write (Context.Session c)
    {| Response.ID := Context.ID c;
       Response.Error := {| ResponseError.Code := status; ResponseError.Message := "" |};
       Response.Event := "";
       Response.Result := result |}.

(** Modelled from the spec: the operation with which a handler advances is
    not declared in [mego.go].  [call] runs the handler under the cursor, as
    [ctx.handlers[0](ctx)] does for the first one; at [ActNext] the cursor
    moves to the next handler, which is run in turn, and nothing happens once
    the chain is exhausted.  The chain never advances by itself.  (The branch
    for a cursor outside the chain is never reached: the cursor starts at 0
    in a chain that is not empty and only moves inside the chain.) *)
Fixpoint call (fuel : nat) (c : Context.t) (st : RunState) : option RunState :=
  match fuel with
  | O => None
  | S fuel =>
    match Context.handlers c !! index st with
    | None => Some st
    | Some h =>
      (fix perform (acts : list Action) (st : RunState) : option RunState :=
         match acts with
         | [] => Some st
         | ActRespond status result :: acts => perform acts (log (Respond c status result) st)
         | ActNext :: acts =>
           if decide (S (index st) < length (Context.handlers c))%nat
           then match call fuel c (move (S (index st)) st) with
                | Some st => perform acts st
                | None => None
                end
           else perform acts st
         end) (code h c) (log (ObsInvoke (index st) h) st)
    end
  end.

(** Modelled from the spec: the body of a handler, run from state [st] with
    budget [fuel] for the handlers further down the chain; [call_S] shows that
    this is the inner loop of [call]. *)
Fixpoint perform (fuel : nat) (c : Context.t) (acts : list Action) (st : RunState)
  : option RunState :=
  match acts with
  | [] => Some st
  | ActRespond status result :: acts => perform fuel c acts (log (Respond c status result) st)
  | ActNext :: acts =>
    if decide (S (index st) < length (Context.handlers c))%nat
    then match call fuel c (move (S (index st)) st) with
         | Some st => perform fuel c acts st
         | None => None
         end
    else perform fuel c acts st
  end.

(** [Emit].  The statement [if ch == ""] of the source has no body and does
    nothing; the channel is looked up under the name that was passed. *)
Definition Emit (e : Engine.t) (event : string) (channel : string) (result : Value)
  : option error * list Obs :=
  match Engine.Events e !! event with
  | None => (Some ErrEventNotFound, [])
  | Some ev =>
    match Event.Channels ev !! channel with
    | None => (Some ErrChannelNotFound, [])
    | Some ch =>
      let firstErr : option error := None in
      (firstErr,
       (λ v, write v {| Response.ID := 0;
                        Response.Error := {| ResponseError.Code := 0; ResponseError.Message := "" |};
                        Response.Event := event;
                        Response.Result := result |}) <$> Channel.Sessions ch)
    end
  end.

(** The [Context] literal of [messageHandler]. *)
Definition newContext (e : Engine.t) (s : melody.Session) (sess : Session.t)
  (method : option Method.t) (req : Request.t) : Context.t :=
  {| Context.Session := sess;
     Context.Method := method;
     Context.ID := Request.ID req;
     Context.Request := melody.Request s;
     Context.data := Request.Params req;
     Context.handlers := Engine.handlers e |}.

(** The elements of [ctx.handlers] after
    [ctx.handlers = append(ctx.handlers, hs...)].  The source appends to a
    slice that shares its array with [e.handlers]: where the new elements are
    put (into that array when it has room, else into a new one) is modelled
    by [appendShared] below, and [dispatchShared] is [dispatch] with the
    array made explicit.  One call of [messageHandler] reads the slice right
    after the append, so it sees these elements whichever way [append] went
    ([messageHandlerShared_outcome]). *)
Definition appendHandlers (c : Context.t) (hs : list HandlerFunc) : Context.t :=
  {| Context.Session := Context.Session c;
     Context.Method := Context.Method c;
     Context.ID := Context.ID c;
     Context.Request := Context.Request c;
     Context.data := Context.data c;
     Context.handlers := Context.handlers c ++ hs |}.

(** The body of the two places of [messageHandler] that handle
    ["MegoInitialize"]: the decoded map is assigned to [sess.Keys], and
    [sess] is the pointer stored in [e.Sessions] under [id]. *)
Definition initialize (e : Engine.t) (id : string) (sess : Session.t) (req : Request.t)
  (tr : list Obs) : Outcome :=
  match unmarshalKeys (Request.Params req) with
  | inl keys =>
    Returned (set_Sessions (<[id := set_Keys keys sess]> (Engine.Sessions e)) e) tr
  | inr _ => Returned e tr
  end.

(** [messageHandler] from the look-up in [e.Methods] to its end.  The branch
    [if !ok] of the source is empty, so a name that is not registered leaves
    [method] nil, and [method.Handlers] then dereferences nil. *)
Definition dispatch (e : Engine.t) (s : melody.Session) (sess : Session.t) (req : Request.t)
  (tr : list Obs) : Outcome :=
  let method := Engine.Methods e !! Request.Method req in
  let tr := tr ++ [ObsGetMethod (Request.Method req)] in
  let ctx := newContext e s sess method req in
  match method with
  | None => Panicked NilDereference e tr
  | Some m =>
    let ctx := appendHandlers ctx (Method.Handlers m) in
    if decide (0 < length (Context.handlers ctx))%nat
    then match call (length (Context.handlers ctx)) ctx {| index := 0; trace := tr |} with
         | Some st => Returned e (trace st)
         | None => OutOfFuel
         end
    else Returned e tr
  end.

(** [messageHandler] *)
Definition messageHandler (e : Engine.t) (s : melody.Session) (msg : list Byte.byte)
  : Outcome :=
  match unmarshalRequest msg with
  | inr err =>
    let resp := marshal {| Response.ID := 0;
                           Response.Error := {| ResponseError.Code := StatusInvalid;
                                                ResponseError.Message := err |};
                           Response.Event := "";
                           Response.Result := VNil |} in
    Returned e [ObsWriteBinary (melody.conn s) resp]
  | inl req =>
    match melody.Get s "ID" with
    | None => Returned e []
    | Some (VString id) =>
      let tr := [ObsGetSession id] in
      match Engine.Sessions e !! id with
      | None => Returned e tr
      | Some sess =>
        if decide (Request.Method req = "MegoInitialize")
        then initialize e id sess req tr
        else
          (* the [switch] *)
          if decide (Request.Method req = "MegoInitialize")
          then initialize e id sess req tr
          else if decide (Request.Method req = "MegoSubscribe")
          then dispatch e s sess req tr
          else dispatch e s sess req tr
      end
    | Some _ => Panicked TypeAssertion e []      (* [id.(string)] *)
    end
  end.

End Dispatch.

(** ** The transport driving the engine

    melody calls the callbacks that [Run] installed.  A notification of a new
    connection carries the ID that [uuid.NewV4] draws for it. *)

Inductive Notification : Type :=
| Connect (c : nat) (request : string) (uuid : string)
| Disconnect (c : nat).

Record World : Type := mkWorld {
  engine : Engine.t;
  open : gmap nat melody.Session      (* the connections that are open *)
}.

Definition notify (w : World) (n : Notification) : World :=
  let callbacks := default melody.New (Engine.websocket (engine w)) in
  match n with
  | Connect c request uuid =>
    let s := {| melody.conn := c; melody.Request := request; melody.Keys := ∅ |} in
    match melody.connectHandler callbacks with
    | Some melody.engine_connectHandler =>
      let '(e, s) := connectHandler (engine w) s uuid in
      {| engine := e; open := <[c := s]> (open w) |}
    | None => {| engine := engine w; open := <[c := s]> (open w) |}
    end
  | Disconnect c =>
    (* no callback of the engine is installed for a closed connection *)
    {| engine := engine w; open := delete c (open w) |}
  end.

Definition run (w : World) (ns : list Notification) : World := foldl notify w ns.

(** The engine as [Run] leaves it when the transport starts to serve. *)
Definition serving (e : Engine.t) : World :=
  {| engine := fst (Run e []); open := ∅ |}.

(** The subscribers of a channel of an event (none if either is missing). *)
Definition subscribers (e : Engine.t) (event channel : string) : list Session.t :=
  match Engine.Events e !! event with
  | Some ev =>
    match Event.Channels ev !! channel with
    | Some ch => Channel.Sessions ch
    | None => []
    end
  | None => []
  end.

(** The positions of a chain, each with its handler. *)
Definition positions (hs : list HandlerFunc) : list (nat * HandlerFunc) :=
  imap (λ j h, (j, h)) hs.

(** A handler advances if its body hands over to the next handler. *)
Definition advances (code : HandlerFunc → Context.t → list Action)
  (h : HandlerFunc) (c : Context.t) : Prop :=
  ActNext ∈ code h c.

(** How often the body of a handler hands over. *)
Definition handovers (code : HandlerFunc → Context.t → list Action)
  (h : HandlerFunc) (c : Context.t) : nat :=
  length (filter (λ a, a = ActNext) (code h c)).

(** ** The array behind [e.handlers]

    [e.handlers] is a Go slice, a window on an array that can be longer than
    the window.  The context literal of [messageHandler] copies the window,
    not the array, and [append] fills the slots behind the window when there
    are enough of them.  [Spare] is the content of these slots, from the end
    of [e.handlers] to the end of its array; a slot that was never written
    holds nil.  [Context.handlers] and [Engine.handlers] are the elements of
    the windows. *)

Abbreviation Spare := (list (option HandlerFunc)).

(** The slice that [append] returns for [ctx.handlers]: a longer window on
    the array of [e.handlers], or an array of its own. *)
Inductive Slice : Type :=
| Shared (n : nat)                 (* [n] slots beyond the end of [e.handlers] *)
| Fresh (hs : list HandlerFunc).

(** [append(s, hs...)] for a slice [s] with the elements [mw] that shares the
    array of [e.handlers]: with room for [hs] the elements are written into
    the array, otherwise a new array is allocated and the old one is left as
    it is. *)
Definition appendShared (mw : list HandlerFunc) (spare : Spare) (hs : list HandlerFunc)
  : Slice * Spare :=
  if decide (length hs ≤ length spare)%nat
  then (Shared (length hs), (Some <$> hs) ++ drop (length hs) spare)
  else (Fresh (mw ++ hs), spare).

(** The elements of a slice, read from the array as it is now. *)
Definition elements (mw : list HandlerFunc) (spare : Spare) (sl : Slice)
  : list (option HandlerFunc) :=
  match sl with
  | Shared n => (Some <$> mw) ++ take n spare
  | Fresh hs => Some <$> hs
  end.

Definition setHandlers (hs : list HandlerFunc) (c : Context.t) : Context.t :=
  {| Context.Session := Context.Session c;
     Context.Method := Context.Method c;
     Context.ID := Context.ID c;
     Context.Request := Context.Request c;
     Context.data := Context.data c;
     Context.handlers := hs |}.

Section Shared.

Variable unmarshalRequest : list Byte.byte → Request.t + string.
Variable unmarshalKeys : list Byte.byte → H + string.
Variable marshal : Response.t → list Byte.byte.
Variable code : HandlerFunc → Context.t → list Action.

(** The end of [messageHandler], from [len(ctx.handlers) > 0] on, for a
    context [ctx] whose handlers are the slice [sl]: the chain is read from
    the array as it is when the chain is run.  ([append] leaves no nil in the
    window of the slice it returns; a nil there would be a call of a nil
    function.) *)
Definition execute (e : Engine.t) (ctx : Context.t) (sl : Slice) (spare : Spare)
  (tr : list Obs) : Outcome :=
  match mapM id (elements (Context.handlers ctx) spare sl) with
  | None => Panicked NilDereference e tr
  | Some chain =>
    let ctx := setHandlers chain ctx in
    if decide (0 < length (Context.handlers ctx))%nat
    then match call marshal code (length (Context.handlers ctx)) ctx
                 {| index := 0; trace := tr |} with
         | Some st => Returned e (trace st)
         | None => OutOfFuel
         end
    else Returned e tr
  end.

(** [dispatch] with the array behind [e.handlers] made explicit: the
    literal gives [ctx.handlers] the window of [e.handlers], [append] writes
    the handlers of the method behind it or moves to a new array, and the
    chain is run. *)
Definition dispatchShared (e : Engine.t) (s : melody.Session) (sess : Session.t)
  (req : Request.t) (tr : list Obs) (spare : Spare) : Outcome * Spare :=
  let method := Engine.Methods e !! Request.Method req in
  let tr := tr ++ [ObsGetMethod (Request.Method req)] in
  let ctx := newContext e s sess method req in
  match method with
  | None => (Panicked NilDereference e tr, spare)
  | Some m =>
    let '(sl, spare) := appendShared (Context.handlers ctx) spare (Method.Handlers m) in
    (execute e ctx sl spare tr, spare)
  end.

(** [messageHandler] with the array behind [e.handlers] made explicit. *)
Definition messageHandlerShared (e : Engine.t) (s : melody.Session) (msg : list Byte.byte)
  (spare : Spare) : Outcome * Spare :=
  match unmarshalRequest msg with
  | inr err =>
    let resp := marshal {| Response.ID := 0;
                           Response.Error := {| ResponseError.Code := StatusInvalid;
                                                ResponseError.Message := err |};
                           Response.Event := "";
                           Response.Result := VNil |} in
    (Returned e [ObsWriteBinary (melody.conn s) resp], spare)
  | inl req =>
    match melody.Get s "ID" with
    | None => (Returned e [], spare)
    | Some (VString id) =>
      let tr := [ObsGetSession id] in
      match Engine.Sessions e !! id with
      | None => (Returned e tr, spare)
      | Some sess =>
        if decide (Request.Method req = "MegoInitialize")
        then (initialize unmarshalKeys e id sess req tr, spare)
        else
          (* the [switch] *)
          if decide (Request.Method req = "MegoInitialize")
          then (initialize unmarshalKeys e id sess req tr, spare)
          else if decide (Request.Method req = "MegoSubscribe")
          then dispatchShared e s sess req tr spare
          else dispatchShared e s sess req tr spare
      end
    | Some _ => (Panicked TypeAssertion e [], spare)      (* [id.(string)] *)
    end
  end.

End Shared.

(** ** A small codec and code table, for the examples

    The theorems hold for every codec and every code table.  The examples
    need concrete ones: a frame is the length of the method name, the name,
    one byte of ID and the payload; a payload of keys is a sequence of pairs
    of a one-letter key and a one-byte number. *)

Definition demoRequest (msg : list Byte.byte) : Request.t + string :=
  match msg with
  | [] => inr "EOF"
  | n :: rest =>
    let k := N.to_nat (Byte.to_N n) in
    match drop k rest with
    | [] => inr "unexpected EOF"
    | i :: params =>
      inl {| Request.Method := String.string_of_list_byte (take k rest);
             Request.ID := Z.of_N (Byte.to_N i);
             Request.Params := params |}
    end
  end.

Fixpoint demoKeys (bs : list Byte.byte) : H + string :=
  match bs with
  | [] => inl ∅
  | k :: v :: bs =>
    match demoKeys bs with
    | inl m => inl (<[String.string_of_list_byte [k] := VInt (Z.of_N (Byte.to_N v))]> m)
    | inr err => inr err
    end
  | _ => inr "unexpected EOF"
  end.

Definition demoByte (z : Z) : Byte.byte :=
  default Byte.x00 (Byte.of_N (Z.to_N (z `mod` 256))).

Definition demoMarshal (r : Response.t) : list Byte.byte :=
  demoByte (Response.ID r) :: demoByte (ResponseError.Code (Response.Error r))
  :: String.list_byte_of_string (ResponseError.Message (Response.Error r))
  ++ String.list_byte_of_string (Response.Event r).

Definition demoFrame (method : string) (id : Z) (params : list Byte.byte) : list Byte.byte :=
  demoByte (Z.of_nat (String.length method))
  :: String.list_byte_of_string method ++ demoByte id :: params.

(** Handler 0 returns at once, handler 1 answers [StatusNotFound], handler 2
    answers [StatusOK] and advances, handler 3 advances twice, every other
    handler only advances. *)
Definition demoCode (h : HandlerFunc) (c : Context.t) : list Action :=
  match h with
  | 0%nat => []
  | 1%nat => [ActRespond StatusNotFound VNil]
  | 2%nat => [ActRespond StatusOK VNil; ActNext]
  | 3%nat => [ActNext; ActNext]
  | _ => [ActNext]
  end.

(** An engine with one method and a no-method chain, serving one client. *)
Definition demoEngine : Engine.t :=
  NoMethod (fst (Register New "Sum" [2%nat])) [1%nat].

Definition demoWorld : World := run (serving demoEngine) [Connect 0 "/" "u0"].

Definition demoSession : melody.Session :=
  {| melody.conn := 0; melody.Request := "/"; melody.Keys := {["ID" := VString "u0"]} |}.

Abbreviation demoHandler := (messageHandler demoRequest demoKeys demoMarshal demoCode).

(** The engine after the client has sent "MegoInitialize" with the key [a] (byte 61). *)
Definition demoInitialized : Engine.t :=
  default (engine demoWorld)
    (engine_of (demoHandler (engine demoWorld) demoSession
                  (demoFrame "MegoInitialize" 1 [Byte.x61; Byte.x01]))).

(** The serving engine with an event that has two channels; the session
    [u2] is subscribed to both. *)
Definition demoSubscriber (n : nat) (id : string) : Session.t :=
  {| Session.ID := id; Session.websocket := n; Session.Keys := ∅ |}.

Definition demoChat : Engine.t :=
  set_Events
    {[ "chat" :=
         {| Event.Name := "chat";
            Event.Channels :=
              {[ "room1" := {| Channel.Sessions := [demoSubscriber 1 "u1"; demoSubscriber 2 "u2"] |};
                 "room2" := {| Channel.Sessions := [demoSubscriber 2 "u2"; demoSubscriber 3 "u3"] |} ]} |} ]}
    (engine demoWorld).

(** An engine whose default limits are two bytes a chunk and four bytes a
    file, with an upload method whose handler returns at once. *)
Definition demoUpload : Engine.t :=
  set_Option
    (Some {| EngineOption.MaxSize := 0;
             EngineOption.MaxChunkSize := 2;
             EngineOption.MaxFileSize := 4;
             EngineOption.MaxSessions := 0;
             EngineOption.CheckInterval := 0 |})
    (fst (Receive (engine demoWorld) "Upload" [0%nat])).

(** Middleware [4, 5] and a method with the chain [6, 7], all advancing; and
    the same with handler 0, which does not advance, in the place of 5. *)
Definition demoChain (B : HandlerFunc) : Engine.t :=
  fst (Register (Use (engine demoWorld) [4%nat; B]) "M" [6%nat; 7%nat]).

(** The chain [3, 0, 6, 7]: handler 3 hands over twice, handler 0 does not
    advance. *)
Definition demoTwice : Engine.t :=
  fst (Register (Use (engine demoWorld) [3%nat; 0%nat]) "M" [6%nat; 7%nat]).

(** Middleware [4, 5, 6] on an array with one more slot, as it is after three
    calls of [Use] with one handler each when the array grows by doubling;
    the method "M" has the chain [7], the method "N" the chain [0]. *)
Definition demoShared : Engine.t :=
  fst (Register
         (fst (Register (Use (Use (Use (engine demoWorld) [4%nat]) [5%nat]) [6%nat])
                 "M" [7%nat]))
         "N" [0%nat]).

(** ** The claims as the specification words them, where the code differs *)

(** C3 as stated, its last part: with global middleware [A, B] and method
    chain [C, D], if B does not advance then C and D are never entered. *)
Definition chain_ends_at_B
  (unmarshalRequest : list Byte.byte → Request.t + string)
  (unmarshalKeys : list Byte.byte → H + string)
  (marshal : Response.t → list Byte.byte)
  (code : HandlerFunc → Context.t → list Action)
  (e : Engine.t) (s : melody.Session) (msg : list Byte.byte) (spare : Spare) : Prop :=
  ∀ req id sess m A B C D,
    unmarshalRequest msg = inl req →
    melody.Get s "ID" = Some (VString id) →
    Engine.Sessions e !! id = Some sess →
    Request.Method req ≠ "MegoInitialize" →
    Engine.Methods e !! Request.Method req = Some m →
    Engine.handlers e = [A; B] →
    Method.Handlers m = [C; D] →
    ¬ advances code B (appendHandlers (newContext e s sess (Some m) req) (Method.Handlers m)) →
    ∀ i h,
      (i, h) ∈ invoked (trace_of
                 (messageHandlerShared unmarshalRequest unmarshalKeys marshal code
                    e s msg spare).1) →
      (i < 2)%nat.

(** C2 as stated: the decoded pairs are merged into the [Keys] of the
    session, and the keys that the payload does not name are kept. *)
Definition keys_are_merged
  (unmarshalRequest : list Byte.byte → Request.t + string)
  (unmarshalKeys : list Byte.byte → H + string)
  (marshal : Response.t → list Byte.byte)
  (code : HandlerFunc → Context.t → list Action)
  (e : Engine.t) (s : melody.Session) (msg : list Byte.byte) : Prop :=
  ∀ req id sess keys,
    unmarshalRequest msg = inl req →
    Request.Method req = "MegoInitialize" →
    melody.Get s "ID" = Some (VString id) →
    Engine.Sessions e !! id = Some sess →
    unmarshalKeys (Request.Params req) = inl keys →
    ∃ e' sess',
      engine_of (messageHandler unmarshalRequest unmarshalKeys marshal code e s msg) = Some e' ∧
      Engine.Sessions e' !! id = Some sess' ∧
      Session.Keys sess' = keys ∪ Session.Keys sess.

(** ** Further notions for the properties of the code *)

(** The panic with which a call of [messageHandler] ended, if any. *)
Definition panic_of (o : Outcome) : option panic :=
  match o with
  | Panicked why _ _ => Some why
  | Returned _ _ | OutOfFuel => None
  end.

(** The IDs drawn for the connections that a sequence of notifications
    opens, in order. *)
Definition uuids (ns : list Notification) : list string :=
  omap (λ n, match n with Connect _ _ uuid => Some uuid | Disconnect _ => None end) ns.

(** The transport calls [connectHandler] of the engine, as after [Run]. *)
Definition served (w : World) : Prop :=
  melody.connectHandler (default melody.New (Engine.websocket (engine w)))
  = Some melody.engine_connectHandler.

(** Every open connection carries the ID of a session of the registry, and
    that session writes to this connection. *)
Definition resolves (w : World) : Prop :=
  ∀ c s, open w !! c = Some s →
    melody.conn s = c ∧
    ∃ id sess,
      melody.Get s "ID" = Some (VString id) ∧
      Engine.Sessions (engine w) !! id = Some sess ∧
      Session.ID sess = id ∧ Session.websocket sess = c.

(** The status codes of the const block, by the band that its comment gives
    them: 0 to 50 for success, 51 to 100 for errors. *)
Definition successCodes : list Z :=
  [StatusOK; StatusProcessing; StatusNoChanges; StatusFileNext; StatusFileAbort].

Definition errorCodes : list Z :=
  [StatusError; StatusFull; StatusExists; StatusInvalid; StatusNotFound;
   StatusNotAuthorized; StatusNoPermission; StatusUnimplemented;
   StatusTooManyRequests; StatusResourceExhausted; StatusBusy;
   StatusFileRetry; StatusFileEmpty; StatusFileTooLarge].

(** ** [examples/basic/main.go]

    [main] registers the method "Sum" on a new engine and runs it.  The
    handler is a function literal; [mainSum] is its address.  Its body reads
    two parameters through [c.Params], which is declared outside the sources
    at hand, so the body stays in the code table. *)
Definition mainSum : HandlerFunc := 0%nat.

Definition main : Engine.t * string :=
  let e := New in
  let '(e, _) := Register e "Sum" [mainSum] in
  Run e [].

(** * Facts about the handler chain *)

Section ChainFacts.

Variable marshal : Response.t → list Byte.byte.
Variable code : HandlerFunc → Context.t → list Action.

Abbreviation call' := (call marshal code).
Abbreviation perform' := (perform marshal code).

Lemma call_S fuel c st :
  call' (S fuel) c st =
  match Context.handlers c !! index st with
  | None => Some st
  | Some h => perform' fuel c (code h c) (log (ObsInvoke (index st) h) st)
  end.
Proof.
  simpl. destruct (Context.handlers c !! index st) as [h|]; [|done].
  generalize (log (ObsInvoke (index st) h) st).
  induction (code h c) as [|[status result|] acts IH]; intros st0; simpl; [done|apply IH|].
  case_decide; [|apply IH].
  destruct (call marshal code fuel c (move (S (index st0)) st0)); [apply IH|done].
Qed.

Lemma perform_app fuel c acts1 acts2 st :
  perform' fuel c (acts1 ++ acts2) st =
  perform' fuel c acts1 st ≫= perform' fuel c acts2.
Proof.
  revert st. induction acts1 as [|[status result|] acts1 IH]; intros st; simpl; [done|apply IH|].
  case_decide; [|apply IH].
  destruct (call marshal code fuel c (move (S (index st)) st)); [apply IH|done].
Qed.

Lemma invoked_app tr1 tr2 : invoked (tr1 ++ tr2) = invoked tr1 ++ invoked tr2.
Proof. apply omap_app. Qed.

Lemma written_app tr1 tr2 : written (tr1 ++ tr2) = written tr1 ++ written tr2.
Proof. apply omap_app. Qed.

(** A body that does not hand over, or that runs when the cursor is on the
    last handler, enters no handler and leaves the cursor where it is. *)
Lemma perform_stays fuel c acts st :
  ActNext ∉ acts ∨ (length (Context.handlers c) ≤ S (index st))%nat →
  ∃ st', perform' fuel c acts st = Some st' ∧ index st' = index st ∧
         invoked (trace st') = invoked (trace st).
Proof.
  revert st. induction acts as [|[status result|] acts IH]; intros st Hst; simpl.
  - by exists st.
  - destruct (IH (log (Respond marshal c status result) st)) as (st' & -> & Hi & Htr).
    { destruct Hst as [Hst|Hst]; [left|right; done]. by intros ?; apply Hst; right. }
    exists st'. split_and!; [done|done|].
    rewrite Htr. simpl. rewrite invoked_app. simpl. by rewrite app_nil_r.
  - destruct Hst as [Hst|Hst]; [by exfalso; apply Hst; left|].
    case_decide; [lia|]. apply IH. by right.
Qed.

(** The chain always runs to its end within the budget, and the cursor only
    moves forward. *)
Lemma call_perform_total c fuel :
  (∀ st, (index st < length (Context.handlers c))%nat →
         (length (Context.handlers c) - index st ≤ fuel)%nat →
         ∃ st', call' fuel c st = Some st' ∧
                (index st ≤ index st' < length (Context.handlers c))%nat) ∧
  (∀ acts st, (index st < length (Context.handlers c))%nat →
         (length (Context.handlers c) - S (index st) ≤ fuel)%nat →
         ∃ st', perform' fuel c acts st = Some st' ∧
                (index st ≤ index st' < length (Context.handlers c))%nat).
Proof.
  induction fuel as [|fuel [IHcall IHperform]].
  - assert (Hc : ∀ st, (index st < length (Context.handlers c))%nat →
         (length (Context.handlers c) - index st ≤ 0)%nat →
         ∃ st', call' 0 c st = Some st' ∧
                (index st ≤ index st' < length (Context.handlers c))%nat) by (intros; lia).
    split; [exact Hc|].
    induction acts as [|[status result|] acts IH]; intros st Hlt Hfuel; cbn [perform].
    + exists st. split; [done|lia].
    + apply (IH (log (Respond marshal c status result) st)); done.
    + case_decide; [lia|]. by apply IH.
  - assert (Hc : ∀ st, (index st < length (Context.handlers c))%nat →
         (length (Context.handlers c) - index st ≤ S fuel)%nat →
         ∃ st', call' (S fuel) c st = Some st' ∧
                (index st ≤ index st' < length (Context.handlers c))%nat).
    { intros st Hlt Hfuel. rewrite call_S.
      destruct (Context.handlers c !! index st) as [h|] eqn:Hh.
      - destruct (IHperform (code h c) (log (ObsInvoke (index st) h) st)) as (st' & ? & ?);
          simpl; [done|lia|]. by exists st'.
      - exists st. split; [done|lia]. }
    split; [exact Hc|].
    induction acts as [|[status result|] acts IH]; intros st Hlt Hfuel; cbn [perform].
    + exists st. split; [done|lia].
    + apply (IH (log (Respond marshal c status result) st)); done.
    + case_decide as Hnext; [|by apply IH].
      destruct (Hc (move (S (index st)) st)) as (st1 & -> & Hst1); simpl; [done|lia|].
      simpl in Hst1.
      destruct (IH st1) as (st' & ? & ?); [lia|lia|].
      exists st'. split; [done|lia].
Qed.

Lemma call_total c st :
  (index st < length (Context.handlers c))%nat →
  ∃ st', call' (length (Context.handlers c)) c st = Some st'.
Proof.
  intros Hlt. destruct (call_perform_total c (length (Context.handlers c))) as [Hc _].
  destruct (Hc st) as (st' & ? & _); [done|lia|]. by exists st'.
Qed.

(** What holds of the state of a chain and is kept by every single step is
    kept by the whole run. *)
Lemma call_perform_invariant (Inv : RunState → Prop) c :
  (∀ st status result, Inv st → Inv (log (Respond marshal c status result) st)) →
  (∀ st i h, Inv st → Inv (log (ObsInvoke i h) st)) →
  (∀ st i, Inv st → Inv (move i st)) →
  ∀ fuel,
    (∀ st st', call' fuel c st = Some st' → Inv st → Inv st') ∧
    (∀ acts st st', perform' fuel c acts st = Some st' → Inv st → Inv st').
Proof.
  intros Hrespond Hinvoke Hmove.
  assert (Hstep : ∀ fuel,
    (∀ st st', call' fuel c st = Some st' → Inv st → Inv st') →
    ∀ acts st st', perform' fuel c acts st = Some st' → Inv st → Inv st').
  { intros fuel Hc. induction acts as [|[status result|] acts IH]; intros st st'; cbn [perform].
    - by intros [= ->].
    - intros Hp Hst. eapply IH; [done|]. by apply Hrespond.
    - case_decide; [|apply IH].
      destruct (call marshal code fuel c (move (S (index st)) st)) as [st1|] eqn:Hcall; [|done].
      intros Hp Hst. eapply IH; [done|]. eapply Hc; [done|]. by apply Hmove. }
  induction fuel as [|fuel [IHcall IHperform]].
  - split; [done|]. by apply Hstep.
  - assert (Hc : ∀ st st', call' (S fuel) c st = Some st' → Inv st → Inv st').
    { intros st st'. rewrite call_S.
      destruct (Context.handlers c !! index st) as [h|]; [|by intros [= ->]].
      intros Hp Hst. eapply IHperform; [done|]. by apply Hinvoke. }
    split; [done|]. by apply Hstep.
Qed.

Lemma handovers_none acts :
  length (filter (λ a, a = ActNext) acts) = 0%nat → ActNext ∉ acts.
Proof.
  intros Hlen Hin. apply length_zero_iff_nil in Hlen.
  by apply (filter_nil_not_elem_of _ acts ActNext Hlen).
Qed.

Lemma handovers_once acts :
  length (filter (λ a, a = ActNext) acts) = 1%nat →
  ∃ pre post, acts = pre ++ ActNext :: post ∧ (ActNext ∉ pre) ∧ (ActNext ∉ post).
Proof.
  induction acts as [|a acts IH]; [done|].
  rewrite filter_cons. case_decide as Ha; simpl.
  - subst a. intros [= Hlen]. exists [], acts. split_and!; [done|apply not_elem_of_nil|].
    by apply handovers_none.
  - intros Hlen. destruct (IH Hlen) as (pre & post & -> & Hpre & Hpost).
    exists (a :: pre), post. split_and!; [done| |done].
    intros [?|?]%elem_of_cons; [congruence|done].
Qed.

(** If every handler from the cursor on advances, the handlers are entered
    one after the other up to the end of the chain, each of them once. *)
Lemma call_all_advance c n : ∀ i tr fuel,
  n = (length (Context.handlers c) - i)%nat →
  (i < length (Context.handlers c))%nat →
  (length (Context.handlers c) - i ≤ fuel)%nat →
  (∀ j h, (i ≤ j)%nat → Context.handlers c !! j = Some h → ActNext ∈ code h c) →
  ∃ st', call' fuel c {| index := i; trace := tr |} = Some st' ∧
         S (index st') = length (Context.handlers c) ∧
         invoked (trace st') = invoked tr ++ drop i (positions (Context.handlers c)).
Proof.
  induction n as [|n IH]; intros i tr fuel Hn Hlt Hfuel Hadv; [lia|].
  destruct fuel as [|fuel]; [lia|]. rewrite call_S. simpl.
  destruct (lookup_lt_is_Some_2 (Context.handlers c) i Hlt) as [h Hh]. rewrite Hh.
  assert (Hpos : drop i (positions (Context.handlers c)) =
                 (i, h) :: drop (S i) (positions (Context.handlers c))).
  { apply drop_S. unfold positions. by rewrite list_lookup_imap, Hh. }
  destruct (list_elem_of_split_l _ _ (Hadv i h (le_n _) Hh)) as (pre & post & -> & Hpre).
  rewrite perform_app.
  destruct (perform_stays fuel c pre (log (ObsInvoke i h) {| index := i; trace := tr |}))
    as (st1 & -> & Hi1 & Htr1); [by left|].
  simpl in Hi1, Htr1. rewrite invoked_app in Htr1. simpl in Htr1.
  cbn [mbind option_bind perform]. rewrite Hi1. case_decide as Hnext.
  - destruct (IH (S i) (trace st1) fuel) as (st2 & Hcall & Hi2 & Htr2); [lia|lia|lia| |].
    { intros j h' Hj. apply Hadv. lia. }
    unfold move. rewrite Hcall.
    destruct (perform_stays fuel c post st2) as (st3 & -> & Hi3 & Htr3); [right; lia|].
    exists st3. split_and!; [done|lia|].
    by rewrite Htr3, Htr2, Htr1, Hpos, <-app_assoc.
  - destruct (perform_stays fuel c post st1) as (st3 & -> & Hi3 & Htr3); [right; lia|].
    exists st3. split_and!; [done|lia|].
    rewrite Htr3, Htr1, Hpos. f_equal. f_equal.
    rewrite drop_ge; [done|]. unfold positions. rewrite length_imap. lia.
Qed.

(** If the handlers from the cursor up to [k] hand over once each and the
    handler at [k] does not advance, the chain stops at [k]. *)
Lemma call_stops_at c n : ∀ i k tr fuel,
  n = (k - i)%nat → (i ≤ k)%nat →
  (k < length (Context.handlers c))%nat →
  (length (Context.handlers c) - i ≤ fuel)%nat →
  (∀ j h, (i ≤ j < k)%nat → Context.handlers c !! j = Some h → handovers code h c = 1%nat) →
  (∀ h, Context.handlers c !! k = Some h → ActNext ∉ code h c) →
  ∃ st', call' fuel c {| index := i; trace := tr |} = Some st' ∧
         index st' = k ∧
         invoked (trace st') =
           invoked tr ++ take (S k - i) (drop i (positions (Context.handlers c))).
Proof.
  induction n as [|n IH]; intros i k tr fuel Hn Hik Hlt Hfuel Honce Hstop;
    (destruct fuel as [|fuel]; [lia|]); rewrite call_S; simpl;
    (destruct (lookup_lt_is_Some_2 (Context.handlers c) i) as [h Hh]; [lia|]); rewrite Hh;
    assert (Hpos : drop i (positions (Context.handlers c)) =
                   (i, h) :: drop (S i) (positions (Context.handlers c)))
      by (apply drop_S; unfold positions; by rewrite list_lookup_imap, Hh).
  - assert (i = k) as -> by lia.
    destruct (perform_stays fuel c (code h c) (log (ObsInvoke k h) {| index := k; trace := tr |}))
      as (st1 & -> & Hi1 & Htr1); [left; by apply Hstop|].
    simpl in Hi1, Htr1. rewrite invoked_app in Htr1. simpl in Htr1.
    exists st1. split_and!; [done|done|].
    rewrite Htr1, Hpos. by replace (S k - k)%nat with 1%nat by lia.
  - destruct (handovers_once (code h c)) as (pre & post & -> & Hpre & Hpost).
    { apply (Honce i h); [lia|done]. }
    rewrite perform_app.
    destruct (perform_stays fuel c pre (log (ObsInvoke i h) {| index := i; trace := tr |}))
      as (st1 & -> & Hi1 & Htr1); [by left|].
    simpl in Hi1, Htr1. rewrite invoked_app in Htr1. simpl in Htr1.
    cbn [mbind option_bind perform]. rewrite Hi1. case_decide as Hnext; [|lia].
    destruct (IH (S i) k (trace st1) fuel) as (st2 & Hcall & Hi2 & Htr2); [lia|lia|lia|lia| | |].
    { intros j h' Hj. apply Honce. lia. }
    { done. }
    unfold move. rewrite Hcall.
    destruct (perform_stays fuel c post st2) as (st3 & -> & Hi3 & Htr3); [by left|].
    exists st3. split_and!; [done|lia|].
    rewrite Htr3, Htr2, Htr1, Hpos, <-app_assoc.
    by replace (S k - i)%nat with (S (S k - S i)) by lia.
Qed.

End ChainFacts.

(** * Facts about [messageHandler] *)

Section HandlerFacts.

Variable unmarshalRequest : list Byte.byte → Request.t + string.
Variable unmarshalKeys : list Byte.byte → H + string.
Variable marshal : Response.t → list Byte.byte.
Variable code : HandlerFunc → Context.t → list Action.

Abbreviation messageHandler' := (messageHandler unmarshalRequest unmarshalKeys marshal code).
Abbreviation dispatch' := (dispatch marshal code).
Abbreviation initialize' := (initialize unmarshalKeys).

(** The paths through [messageHandler] once the frame is decoded and the
    session is found. *)
Lemma messageHandler_initialize e s msg req id sess :
  unmarshalRequest msg = inl req →
  melody.Get s "ID" = Some (VString id) →
  Engine.Sessions e !! id = Some sess →
  Request.Method req = "MegoInitialize" →
  messageHandler' e s msg = initialize' e id sess req [ObsGetSession id].
Proof.
  intros Hreq Hid Hsess Hm. unfold messageHandler. rewrite Hreq, Hid, Hsess.
  by rewrite decide_True.
Qed.

Lemma messageHandler_dispatch e s msg req id sess :
  unmarshalRequest msg = inl req →
  melody.Get s "ID" = Some (VString id) →
  Engine.Sessions e !! id = Some sess →
  Request.Method req ≠ "MegoInitialize" →
  messageHandler' e s msg = dispatch' e s sess req [ObsGetSession id].
Proof.
  intros Hreq Hid Hsess Hm. unfold messageHandler. rewrite Hreq, Hid, Hsess.
  rewrite !decide_False by done. by case_decide.
Qed.

(** A name that is not in the Method Registry: nil is dereferenced before
    any chain is built, whatever [NoMethod] has stored. *)
Lemma dispatch_unregistered e s sess req tr :
  Engine.Methods e !! Request.Method req = None →
  dispatch' e s sess req tr =
  Panicked NilDereference e (tr ++ [ObsGetMethod (Request.Method req)]).
Proof. intros Hm. unfold dispatch. by rewrite Hm. Qed.

(** A registered name: the chain of the context is run from its start. *)
Lemma dispatch_registered e s sess req tr m :
  Engine.Methods e !! Request.Method req = Some m →
  let ctx := appendHandlers (newContext e s sess (Some m) req) (Method.Handlers m) in
  let tr0 := tr ++ [ObsGetMethod (Request.Method req)] in
  (Context.handlers ctx = [] ∧ dispatch' e s sess req tr = Returned e tr0) ∨
  (∃ st, call marshal code (length (Context.handlers ctx)) ctx {| index := 0; trace := tr0 |}
           = Some st ∧
         dispatch' e s sess req tr = Returned e (trace st)).
Proof.
  intros Hm ctx tr0. unfold dispatch. rewrite Hm. fold ctx. fold tr0. case_decide as Hlen.
  - right.
    destruct (call_total marshal code ctx {| index := 0; trace := tr0 |} Hlen) as [st Hst].
    exists st. by rewrite Hst.
  - left. split; [|done]. destruct (Context.handlers ctx); [done|simpl in Hlen; lia].
Qed.

(** The step budget of the model is never used up. *)
Lemma dispatch_fuel e s sess req tr : dispatch' e s sess req tr ≠ OutOfFuel.
Proof.
  destruct (Engine.Methods e !! Request.Method req) as [m|] eqn:Hm.
  - destruct (dispatch_registered e s sess req tr m Hm) as [[_ ->]|(st & _ & ->)]; done.
  - by rewrite dispatch_unregistered.
Qed.

Lemma messageHandler_fuel e s msg : messageHandler' e s msg ≠ OutOfFuel.
Proof.
  unfold messageHandler.
  destruct (unmarshalRequest msg) as [req|err]; [|done].
  destruct (melody.Get s "ID") as [[|?|id|?]|]; try done.
  destruct (Engine.Sessions e !! id) as [sess|]; [|done].
  repeat case_decide; try apply dispatch_fuel;
    unfold initialize; by destruct (unmarshalKeys (Request.Params req)).
Qed.

(** Only [initialize] assigns to the engine. *)
Lemma dispatch_engine e s sess req tr : engine_of (dispatch' e s sess req tr) = Some e.
Proof.
  destruct (Engine.Methods e !! Request.Method req) as [m|] eqn:Hm.
  - destruct (dispatch_registered e s sess req tr m Hm) as [[_ ->]|(st & _ & ->)]; done.
  - by rewrite dispatch_unregistered.
Qed.

(** A run of a chain only adds to the trace. *)
Lemma call_extends c fuel st st' :
  call marshal code fuel c st = Some st' → ∃ tr, trace st' = trace st ++ tr.
Proof.
  intros Hcall.
  destruct (call_perform_invariant marshal code (λ x, ∃ tr, trace x = trace st ++ tr) c)
    with (fuel := fuel) as [Hc _].
  - intros x status result [tr Hx]. eexists. simpl. by rewrite Hx, <-app_assoc.
  - intros x i h [tr Hx]. eexists. simpl. by rewrite Hx, <-app_assoc.
  - intros x i [tr Hx]. by exists tr.
  - apply (Hc st st' Hcall). exists []. by rewrite app_nil_r.
Qed.

Lemma perform_extends c fuel acts st st' :
  perform marshal code fuel c acts st = Some st' → ∃ tr, trace st' = trace st ++ tr.
Proof.
  intros Hperform.
  destruct (call_perform_invariant marshal code (λ x, ∃ tr, trace x = trace st ++ tr) c)
    with (fuel := fuel) as [_ Hp].
  - intros x status result [tr Hx]. eexists. simpl. by rewrite Hx, <-app_assoc.
  - intros x i h [tr Hx]. eexists. simpl. by rewrite Hx, <-app_assoc.
  - intros x i [tr Hx]. by exists tr.
  - apply (Hp acts st st' Hperform). exists []. by rewrite app_nil_r.
Qed.

(** The first handler that a run enters is the one under the cursor. *)
Lemma call_enters c fuel st st' h :
  call marshal code fuel c st = Some st' →
  Context.handlers c !! index st = Some h →
  ∃ tr, trace st' = trace st ++ ObsInvoke (index st) h :: tr.
Proof.
  destruct fuel as [|fuel]; [done|]. rewrite call_S. intros Hcall Hh. rewrite Hh in Hcall.
  destruct (perform_extends _ _ _ _ _ Hcall) as [tr Htr]. exists tr.
  rewrite Htr. simpl. by rewrite <-app_assoc.
Qed.

(** ** Decode failure *)

(** C8: a frame that does not decode into a request is answered on its own
    connection with one response of status [StatusInvalid] that carries the
    message of the decode error; the engine is left as it was, and neither
    the Session Registry nor the Method Registry is consulted and no handler
    runs. *)
Theorem decode_failure_answers_invalid e s msg err :
  unmarshalRequest msg = inr err →
  messageHandler' e s msg =
    Returned e
      [ObsWriteBinary (melody.conn s)
         (marshal {| Response.ID := 0;
                     Response.Error := {| ResponseError.Code := StatusInvalid;
                                          ResponseError.Message := err |};
                     Response.Event := "";
                     Response.Result := VNil |})] ∧
  looked_up (trace_of (messageHandler' e s msg)) = [] ∧
  resolved (trace_of (messageHandler' e s msg)) = [] ∧
  invoked (trace_of (messageHandler' e s msg)) = [].
Proof.
  intros Herr. unfold messageHandler. rewrite Herr. by split_and!.
Qed.

(** ** Session initialization *)

(** C2 (amended): a request named "MegoInitialize" is intercepted before the
    Method Registry is consulted, no handler runs and nothing is written.
    When the connection resolves to a session and the payload decodes to a
    key/value map, that map becomes the session's [Keys] as a whole: the
    former keys are replaced, not merged, and every other session and
    registry is left as it was.  When the payload does not decode, the
    engine is left as it was. *)
Theorem initialize_replaces_keys e s msg req :
  unmarshalRequest msg = inl req →
  Request.Method req = "MegoInitialize" →
  let o := messageHandler' e s msg in
  resolved (trace_of o) = [] ∧ invoked (trace_of o) = [] ∧ written (trace_of o) = [] ∧
  ∀ id sess,
    melody.Get s "ID" = Some (VString id) →
    Engine.Sessions e !! id = Some sess →
    (∀ keys, unmarshalKeys (Request.Params req) = inl keys →
       ∃ e', o = Returned e' [ObsGetSession id] ∧
             Engine.Sessions e' !! id =
               Some {| Session.ID := Session.ID sess;
                       Session.websocket := Session.websocket sess;
                       Session.Keys := keys |} ∧
             (∀ id', id' ≠ id → Engine.Sessions e' !! id' = Engine.Sessions e !! id') ∧
             set_Sessions (Engine.Sessions e) e' = e) ∧
    (∀ err, unmarshalKeys (Request.Params req) = inr err →
       o = Returned e [ObsGetSession id]).
Proof.
  intros Hreq Hm o. split_and!.
  1-3: unfold o, messageHandler; rewrite Hreq;
       destruct (melody.Get s "ID") as [[|?|id|?]|]; try done;
       destruct (Engine.Sessions e !! id) as [sess|]; try done;
       rewrite decide_True by done; unfold initialize;
       by destruct (unmarshalKeys (Request.Params req)).
  intros id sess Hid Hsess. unfold o.
  rewrite (messageHandler_initialize e s msg req id sess) by done.
  unfold initialize. split.
  - intros keys ->. eexists. split; [done|]. simpl. split_and!.
    + by rewrite lookup_insert_eq.
    + intros id' Hne. by rewrite lookup_insert_ne.
    + by destruct e.
  - by intros err ->.
Qed.

(** ** Order of the handler chain *)

Lemma Use_order e hs1 hs2 :
  Engine.handlers (Use (Use e hs1) hs2) = Engine.handlers e ++ hs1 ++ hs2.
Proof. unfold Use. simpl. by rewrite <-app_assoc. Qed.

Lemma Register_order e name hs :
  Method.Handlers <$> Engine.Methods (Register e name hs).1 !! name = Some hs.
Proof. unfold Register. simpl. by rewrite lookup_insert_eq. Qed.

(** For a request that resolves to a registered method, seen on the
    elements of the chain: the chain is the global middleware followed by the
    handlers of the method and is run from index 0; with middleware [A, B]
    and method chain [C, D] the handlers are entered in the order A, B, C, D
    if all of them advance, and only A and B are entered if A hands over at
    most once and B does not advance. *)
Lemma messageHandler_chain_order e s msg req id sess m :
  unmarshalRequest msg = inl req →
  melody.Get s "ID" = Some (VString id) →
  Engine.Sessions e !! id = Some sess →
  Request.Method req ≠ "MegoInitialize" →
  Engine.Methods e !! Request.Method req = Some m →
  let ctx := appendHandlers (newContext e s sess (Some m) req) (Method.Handlers m) in
  let tr0 := [ObsGetSession id; ObsGetMethod (Request.Method req)] in
  let o := messageHandler' e s msg in
  Context.handlers ctx = Engine.handlers e ++ Method.Handlers m ∧
  (∀ e0 hs1 hs2, Engine.handlers (Use (Use e0 hs1) hs2) = Engine.handlers e0 ++ hs1 ++ hs2) ∧
  (∀ e0 name hs, Method.Handlers <$> Engine.Methods (Register e0 name hs).1 !! name = Some hs) ∧
  (Context.handlers ctx = [] → o = Returned e tr0) ∧
  (Context.handlers ctx ≠ [] →
     ∃ st, call marshal code (length (Context.handlers ctx)) ctx
             {| index := 0; trace := tr0 |} = Some st ∧
           o = Returned e (trace st)) ∧
  head (invoked (trace_of o)) = head (positions (Context.handlers ctx)) ∧
  ∀ A B C D,
    Engine.handlers e = [A; B] → Method.Handlers m = [C; D] →
    (advances code A ctx → advances code B ctx →
     advances code C ctx → advances code D ctx →
     invoked (trace_of o) = [(0, A); (1, B); (2, C); (3, D)]%nat) ∧
    (handovers code A ctx = 1%nat → ¬ advances code B ctx →
     invoked (trace_of o) = [(0, A); (1, B)]%nat) ∧
    ((handovers code A ctx ≤ 1)%nat → ¬ advances code B ctx →
     ∀ i h, (i, h) ∈ invoked (trace_of o) → (i < 2)%nat).
Proof.
  intros Hreq Hid Hsess Hinit Hm ctx tr0 o.
  assert (Ho : o = dispatch' e s sess req [ObsGetSession id])
    by (by apply messageHandler_dispatch).
  pose proof (dispatch_registered e s sess req [ObsGetSession id] m Hm) as Hd.
  cbv zeta in Hd. fold ctx in Hd. change ([ObsGetSession id] ++ _) with tr0 in Hd.
  rewrite <-Ho in Hd.
  split_and!.
  - done.
  - apply Use_order.
  - apply Register_order.
  - intros Hnil. destruct Hd as [[_ ->]|(st & Hcall & _)]; [done|].
    rewrite Hnil in Hcall. done.
  - intros Hne. by destruct Hd as [[? _]|?].
  - destruct Hd as [[-> ->]|(st & Hcall & ->)]; [done|].
    destruct (Context.handlers ctx) as [|h hs] eqn:Hhs; [done|].
    destruct (call_enters ctx _ _ _ h Hcall) as [tr Htr]; [by rewrite Hhs|].
    simpl. rewrite Htr. done.
  - intros A B C D HAB HCD.
    assert (Hhs : Context.handlers ctx = [A; B; C; D]) by (simpl; by rewrite HAB, HCD).
    destruct Hd as [[Hnil _]|(st & Hcall & ->)]; [by rewrite Hhs in Hnil|].
    simpl trace_of.
    assert (Hlen : length (Context.handlers ctx) = 4%nat) by (by rewrite Hhs).
    assert (Hstop : ∀ k, (k < 2)%nat →
              (∀ j h, (0 ≤ j < k)%nat → Context.handlers ctx !! j = Some h →
                      handovers code h ctx = 1%nat) →
              (∀ h, Context.handlers ctx !! k = Some h → ActNext ∉ code h ctx) →
              ∀ i h, (i, h) ∈ invoked (trace st) → (i < 2)%nat).
    { intros k Hk Honce Hnone i h.
      destruct (call_stops_at marshal code ctx k 0 k tr0 (length (Context.handlers ctx)))
        as (st' & Hcall' & _ & Htr); [lia|lia|lia|lia|done|done|].
      rewrite Hcall in Hcall'. injection Hcall' as <-. rewrite Htr, Hhs.
      destruct k as [|[|k]]; [| |lia]; simpl; rewrite !elem_of_cons, elem_of_nil;
        intros H0; destruct_or?; simplify_eq; lia. }
    split_and!.
    + intros HA HB HC HD.
      destruct (call_all_advance marshal code ctx 4 0 tr0 (length (Context.handlers ctx)))
        as (st' & Hcall' & _ & Htr); [lia|lia|lia| |].
      { intros j h _. rewrite Hhs.
        destruct j as [|[|[|[|j]]]]; simpl; intros [= <-]; done. }
      rewrite Hcall in Hcall'. injection Hcall' as <-. by rewrite Htr, Hhs.
    + intros HA HB.
      destruct (call_stops_at marshal code ctx 1 0 1 tr0 (length (Context.handlers ctx)))
        as (st' & Hcall' & _ & Htr); [lia|lia|lia|lia| | |].
      { intros j h Hj. assert (j = 0%nat) as -> by lia. rewrite Hhs. by intros [= <-]. }
      { intros h. rewrite Hhs. by intros [= <-]. }
      rewrite Hcall in Hcall'. injection Hcall' as <-. by rewrite Htr, Hhs.
    + intros HA HB.
      destruct (decide (handovers code A ctx = 1%nat)) as [Hone|Hzero].
      * apply (Hstop 1%nat); [lia| |].
        { intros j h Hj. assert (j = 0%nat) as -> by lia. rewrite Hhs. by intros [= <-]. }
        { intros h. rewrite Hhs. by intros [= <-]. }
      * apply (Hstop 0%nat); [lia| |].
        { intros j h Hj. lia. }
        { intros h. rewrite Hhs. intros [= <-]. apply handovers_none.
          unfold handovers in HA, Hzero. lia. }
Qed.

End HandlerFacts.

(** * The constructors *)

(** C10: [New] and [Default] build the same engine: the three registries are
    empty, there is no global middleware and no no-method chain.  [Default]
    attaches no Recovery and no Logger middleware, whatever its comment
    says. *)
Theorem New_Default_identical :
  New = Default ∧
  Engine.Sessions Default = ∅ ∧ Engine.Events Default = ∅ ∧ Engine.Methods Default = ∅ ∧
  Engine.handlers Default = [] ∧ Engine.noMethod Default = [].
Proof. by split_and!. Qed.

(** * Emitting events *)

(** C5: [Emit] on an event that is not in the Events registry returns
    [ErrEventNotFound] and writes to no session, whatever the channel and the
    payload are. *)
Theorem Emit_undeclared_event marshal e event channel result :
  Engine.Events e !! event = None →
  Emit marshal e event channel result = (Some ErrEventNotFound, []).
Proof. intros Hev. unfold Emit. by rewrite Hev. Qed.

Lemma Emit_undeclared_event_witness :
  Engine.Events New !! "chat" = None ∧
  Emit demoMarshal New "chat" "room1" (VString "hello") = (Some ErrEventNotFound, []).
Proof.
  split; [reflexivity|]. apply Emit_undeclared_event. reflexivity.
Defined.

(** C4, at an event whose subscribers are spread over two channels: [Emit]
    with the empty channel name looks for a channel whose name is empty,
    finds none, returns [ErrChannelNotFound] and writes nothing, where the
    claim has it deliver once to each of the three subscribed sessions.  The
    same error comes back for an event that [Event] has just declared. *)
Theorem Emit_empty_channel_delivers_nothing :
  subscribers demoChat "chat" "room1" = [demoSubscriber 1 "u1"; demoSubscriber 2 "u2"] ∧
  subscribers demoChat "chat" "room2" = [demoSubscriber 2 "u2"; demoSubscriber 3 "u3"] ∧
  Emit demoMarshal demoChat "chat" "" (VString "hello") = (Some ErrChannelNotFound, []) ∧
  Emit demoMarshal (Event New "chat") "chat" "" (VString "hello") = (Some ErrChannelNotFound, []).
Proof. by vm_compute. Qed.

(** [Emit] with the name of a channel delivers to that channel, in order. *)
Example Emit_named_channel :
  written (Emit demoMarshal demoChat "chat" "room1" (VString "hello")).2 =
  [(1%nat, demoMarshal {| Response.ID := 0;
                          Response.Error := {| ResponseError.Code := 0;
                                               ResponseError.Message := "" |};
                          Response.Event := "chat";
                          Response.Result := VString "hello" |});
   (2%nat, demoMarshal {| Response.ID := 0;
                          Response.Error := {| ResponseError.Code := 0;
                                               ResponseError.Message := "" |};
                          Response.Event := "chat";
                          Response.Result := VString "hello" |})].
Proof. by vm_compute. Qed.

(** * The examples, run *)

(** The connection of the client of [demoWorld], as melody holds it. *)
Example demoWorld_session : open demoWorld !! 0%nat = Some demoSession.
Proof. by vm_compute. Qed.

Example demoWorld_registered :
  Engine.Sessions (engine demoWorld) !! "u0" = Some (demoSubscriber 0 "u0").
Proof. by vm_compute. Qed.

(** The scenario of the specification: a handler answers on the connection
    of the session, with the ID of the request. *)
Example Sum_is_answered :
  demoHandler (engine demoWorld) demoSession (demoFrame "Sum" 7 [Byte.x03; Byte.x04]) =
  Returned (engine demoWorld)
    [ObsGetSession "u0"; ObsGetMethod "Sum"; ObsInvoke 0 2%nat;
     ObsWriteBinary 0
       (demoMarshal {| Response.ID := 7;
                       Response.Error := {| ResponseError.Code := StatusOK;
                                            ResponseError.Message := "" |};
                       Response.Event := "";
                       Response.Result := VNil |})].
Proof. by vm_compute. Qed.

Lemma decode_failure_answers_invalid_witness :
  demoRequest [] = inr "EOF" ∧
  demoHandler (engine demoWorld) demoSession [] =
    Returned (engine demoWorld)
      [ObsWriteBinary 0
         (demoMarshal {| Response.ID := 0;
                         Response.Error := {| ResponseError.Code := 54;
                                              ResponseError.Message := "EOF" |};
                         Response.Event := "";
                         Response.Result := VNil |})].
Proof.
  split; [reflexivity|].
  apply (decode_failure_answers_invalid demoRequest demoKeys demoMarshal demoCode
           (engine demoWorld) demoSession [] "EOF").
  reflexivity.
Defined.

(** C1, at a request for the method "Ghost", which is not registered, on an
    engine whose no-method chain is the handler that answers
    [StatusNotFound]: [messageHandler] dereferences the nil method and
    panics; the no-method chain is not entered and nothing is written, where
    the claim has the no-method chain run. *)
Theorem unregistered_method_skips_noMethod :
  Engine.noMethod (engine demoWorld) = [1%nat] ∧
  Engine.Methods (engine demoWorld) !! "Ghost" = None ∧
  demoHandler (engine demoWorld) demoSession (demoFrame "Ghost" 7 []) =
    Panicked NilDereference (engine demoWorld) [ObsGetSession "u0"; ObsGetMethod "Ghost"].
Proof. by vm_compute. Qed.

(** The same for every engine, codec and code table. *)
Lemma unregistered_method_panics unmarshalRequest unmarshalKeys marshal code e s msg req id sess :
  unmarshalRequest msg = inl req →
  melody.Get s "ID" = Some (VString id) →
  Engine.Sessions e !! id = Some sess →
  Request.Method req ≠ "MegoInitialize" →
  Engine.Methods e !! Request.Method req = None →
  messageHandler unmarshalRequest unmarshalKeys marshal code e s msg =
    Panicked NilDereference e [ObsGetSession id; ObsGetMethod (Request.Method req)].
Proof.
  intros Hreq Hid Hsess Hinit Hm.
  rewrite (messageHandler_dispatch _ _ _ _ e s msg req id sess) by done.
  by rewrite dispatch_unregistered.
Qed.

(** C2 as stated fails: the session of the client holds the key [a]; a
    second "MegoInitialize" that names only the key [b] (byte 62) leaves the
    session without [a]. *)
Lemma initialize_does_not_merge :
  ¬ keys_are_merged demoRequest demoKeys demoMarshal demoCode
      demoInitialized demoSession (demoFrame "MegoInitialize" 2 [Byte.x62; Byte.x02]).
Proof.
  intros Hmerge.
  destruct (Hmerge {| Request.Method := "MegoInitialize"; Request.ID := 2;
                      Request.Params := [Byte.x62; Byte.x02] |}
                   "u0"
                   {| Session.ID := "u0"; Session.websocket := 0;
                      Session.Keys := {["a" := VInt 1]} |}
                   {["b" := VInt 2]})
    as (e' & sess' & He' & Hsess' & Hkeys); [by vm_compute..|].
  vm_compute in He'. injection He' as <-.
  vm_compute in Hsess'. injection Hsess' as <-.
  apply (f_equal (λ m : H, m !! "a")) in Hkeys. vm_compute in Hkeys. done.
Qed.

Lemma initialize_replaces_keys_witness :
  Session.Keys <$> Engine.Sessions demoInitialized !! "u0" = Some {["a" := VInt 1]} ∧
  ∃ e', demoHandler demoInitialized demoSession
          (demoFrame "MegoInitialize" 2 [Byte.x62; Byte.x02]) =
        Returned e' [ObsGetSession "u0"] ∧
        Session.Keys <$> Engine.Sessions e' !! "u0" = Some {["b" := VInt 2]}.
Proof.
  split; [by vm_compute|].
  destruct (initialize_replaces_keys demoRequest demoKeys demoMarshal demoCode
              demoInitialized demoSession
              (demoFrame "MegoInitialize" 2 [Byte.x62; Byte.x02])
              {| Request.Method := "MegoInitialize"; Request.ID := 2;
                 Request.Params := [Byte.x62; Byte.x02] |})
    as (_ & _ & _ & Hkeys); [reflexivity|reflexivity|].
  destruct (Hkeys "u0" {| Session.ID := "u0"; Session.websocket := 0;
                          Session.Keys := {["a" := VInt 1]} |})
    as [Hok _]; [reflexivity|by vm_compute|].
  destruct (Hok {["b" := VInt 2]}) as (e' & He' & Hsess & _); [by vm_compute|].
  exists e'. split; [exact He'|]. rewrite Hsess. reflexivity.
Defined.

(** A handler that hands over twice resumes the chain after a handler that
    did not advance: with the chain [3, 0, 6, 7], handler 6 is entered. *)
Example handing_over_twice :
  invoked (trace_of (demoHandler
                       (fst (Register (Use (engine demoWorld) [3; 0]%nat) "M" [6; 7]%nat))
                       demoSession (demoFrame "M" 9 []))) =
  [(0, 3); (1, 0); (2, 6); (3, 7)]%nat.
Proof. by vm_compute. Qed.

(** * Connections and the Session Registry *)

(** C6, at one client that connects and disconnects: no connection is open
    any more, and [Len] still reports one session.  [Run] hands melody no
    function for a closed connection, so nothing removes a session. *)
Theorem session_outlives_connection :
  let w := run (serving New) [Connect 0 "/" "u0"; Disconnect 0] in
  size (open w) = 0%nat ∧ Len (engine w) = 1 ∧
  Engine.Sessions (engine w) !! "u0" = Some (demoSubscriber 0 "u0").
Proof. by vm_compute. Qed.

(** A connection that opens adds the session under its ID. *)
Lemma connect_adds_session e c request uuid :
  let w := notify (serving e) (Connect c request uuid) in
  Engine.Sessions (engine w) =
    <[uuid := {| Session.ID := uuid; Session.websocket := c; Session.Keys := ∅ |}]>
      (Engine.Sessions e) ∧
  open w !! c = Some {| melody.conn := c; melody.Request := request;
                        melody.Keys := {["ID" := VString uuid]} |}.
Proof.
  simpl. split; [done|]. rewrite lookup_insert_eq. do 2 f_equal.
Qed.

(** No notification ever takes a session out of the registry. *)
Lemma notify_keeps_sessions w n id sess :
  Engine.Sessions (engine w) !! id = Some sess →
  is_Some (Engine.Sessions (engine (notify w n)) !! id).
Proof.
  intros Hsess. destruct n as [c request uuid|c]; simpl; [|by eexists].
  destruct (melody.connectHandler _) as [[]|]; simpl; [|by eexists].
  destruct (decide (uuid = id)) as [->|Hne].
  - rewrite lookup_insert_eq. by eexists.
  - rewrite lookup_insert_ne by done. by eexists.
Qed.

Lemma run_keeps_sessions ns : ∀ w id sess,
  Engine.Sessions (engine w) !! id = Some sess →
  is_Some (Engine.Sessions (engine (run w ns)) !! id).
Proof.
  induction ns as [|n ns IH]; intros w id sess Hsess; simpl; [by eexists|].
  destruct (notify_keeps_sessions w n id sess Hsess) as [sess' Hsess'].
  by apply (IH _ _ sess').
Qed.

(** * Uploads *)

(** [messageHandler] does not read the option of the engine: with other
    limits it does the same. *)
Lemma messageHandler_ignores_Option unmarshalRequest unmarshalKeys marshal code e s msg opt :
  messageHandler unmarshalRequest unmarshalKeys marshal code (set_Option opt e) s msg =
  map_engine (set_Option opt)
    (messageHandler unmarshalRequest unmarshalKeys marshal code e s msg).
Proof.
  assert (Hinit : ∀ id sess req tr,
    initialize unmarshalKeys (set_Option opt e) id sess req tr =
    map_engine (set_Option opt) (initialize unmarshalKeys e id sess req tr)).
  { intros. unfold initialize. by destruct (unmarshalKeys _). }
  assert (Hdisp : ∀ sess req tr,
    dispatch marshal code (set_Option opt e) s sess req tr =
    map_engine (set_Option opt) (dispatch marshal code e s sess req tr)).
  { intros. unfold dispatch. simpl.
    destruct (Engine.Methods e !! Request.Method req) as [m|]; [|done].
    unfold newContext. simpl. case_decide; [|done].
    by destruct (call _ _ _ _ _). }
  unfold messageHandler. destruct (unmarshalRequest msg) as [req|err]; [|done].
  destruct (melody.Get s "ID") as [[|?|id|?]|]; try done. simpl.
  destruct (Engine.Sessions e !! id) as [sess|]; [|done].
  by repeat case_decide.
Qed.

(** C9, at an engine whose default [MaxChunkSize] is two bytes and whose
    default [MaxFileSize] is four, and a method registered with [Receive]:
    a request to that method with three bytes of payload is handed to the
    handler of the method like any other request, and nothing is written,
    where the claim has the engine answer [StatusFileTooLarge].  No code of
    the engine reads the limits or keeps a running total. *)
Theorem oversized_chunk_is_dispatched :
  (EngineOption.MaxChunkSize <$> Engine.Option demoUpload) = Some 2 ∧
  (Method.Processor <$> Engine.Methods demoUpload !! "Upload") = Some (Some DefaultChunkProcessor) ∧
  (Method.Option <$> Engine.Methods demoUpload !! "Upload") = Some None ∧
  demoHandler demoUpload demoSession (demoFrame "Upload" 1 [Byte.x01; Byte.x02; Byte.x03]) =
    Returned demoUpload [ObsGetSession "u0"; ObsGetMethod "Upload"; ObsInvoke 0 0%nat].
Proof. by vm_compute. Qed.

(** * Further properties of the code *)

(** ** Setting up the registries *)

(** X1: [Register] stores the method under its name, and the method it
    returns is the stored one; registering a name again replaces the former
    method as a whole (the last registration wins), and the methods under
    other names are left as they were. *)
Theorem Register_last_wins e method hs1 hs2 :
  let '(e1, m1) := Register e method hs1 in
  let '(e2, m2) := Register e1 method hs2 in
  Engine.Methods e1 !! method = Some m1 ∧
  Engine.Methods e2 !! method = Some m2 ∧
  Method.Name m2 = method ∧ Method.Handlers m2 = hs2 ∧
  Method.Processor m2 = None ∧
  e2 = (Register e method hs2).1 ∧
  ∀ other, other ≠ method → Engine.Methods e2 !! other = Engine.Methods e !! other.
Proof.
  simpl. split_and!; try done.
  - by rewrite lookup_insert_eq.
  - by rewrite lookup_insert_eq.
  - unfold set_Methods. simpl. by rewrite insert_insert_eq.
  - intros other Hne. by rewrite !lookup_insert_ne.
Qed.

(** X2: methods of different names can be registered in either order, and
    global middleware can be added before or after a method is registered:
    the engine is the same. *)
Theorem setup_order e name1 hs1 name2 hs2 mw :
  name1 ≠ name2 →
  (Register (Register e name1 hs1).1 name2 hs2).1 =
    (Register (Register e name2 hs2).1 name1 hs1).1 ∧
  (Register (Use e mw) name1 hs1).1 = Use (Register e name1 hs1).1 mw.
Proof.
  intros Hne. split; [|done].
  unfold Register, set_Methods. simpl. f_equal. by apply insert_insert_ne.
Qed.

Lemma setup_order_witness :
  (Register (Register New "Sum" [1%nat]).1 "Mul" [2%nat]).1 =
  (Register (Register New "Mul" [2%nat]).1 "Sum" [1%nat]).1.
Proof.
  apply (setup_order New "Sum" [1%nat] "Mul" [2%nat] []). discriminate.
Defined.

(** X3: [Use] adds to the global middleware and [NoMethod] replaces the
    no-method chain: two calls of [Use] are one call with the handlers
    appended, two calls of [NoMethod] are the second call alone, and neither
    touches what the other sets. *)
Theorem Use_appends_NoMethod_replaces e hs1 hs2 :
  Use (Use e hs1) hs2 = Use e (hs1 ++ hs2) ∧
  NoMethod (NoMethod e hs1) hs2 = NoMethod e hs2 ∧
  Engine.noMethod (Use e hs1) = Engine.noMethod e ∧
  Engine.handlers (NoMethod e hs1) = Engine.handlers e ∧
  NoMethod (Use e hs1) hs2 = Use (NoMethod e hs2) hs1.
Proof.
  split_and!; try done. unfold Use, set_handlers. simpl. by rewrite <-app_assoc.
Qed.

(** X4: [ReceiveWith] stores the method with the given processor: the entry
    of the registry is the method that is returned, with the handlers in the
    order given; [Receive] does so with the default processor. *)
Theorem ReceiveWith_stores_processor e method processor hs :
  let '(e1, m1) := ReceiveWith e method processor hs in
  Engine.Methods e1 !! method = Some m1 ∧
  Method.Name m1 = method ∧ Method.Handlers m1 = hs ∧
  Method.Processor m1 = Some processor ∧
  (∀ other, other ≠ method → Engine.Methods e1 !! other = Engine.Methods e !! other) ∧
  Receive e method hs = ReceiveWith e method DefaultChunkProcessor hs ∧
  set_Methods (Engine.Methods e) e1 = e.
Proof.
  simpl. split_and!; try done.
  - by rewrite lookup_insert_eq.
  - intros other Hne. by rewrite !lookup_insert_ne.
  - by destruct e.
Qed.

(** ** Events *)

(** X5: [Event] puts a new event without channels under the name, also when
    the name was declared before: right after it [Emit] fails with
    [ErrChannelNotFound] for every channel and writes nothing, whatever
    subscribers the event had.  The other events keep their subscribers. *)
Theorem Event_resets_channels marshal e name channel result :
  Emit marshal (Event e name) name channel result = (Some ErrChannelNotFound, []) ∧
  subscribers (Event e name) name channel = [] ∧
  ∀ other, other ≠ name →
    subscribers (Event e name) other channel = subscribers e other channel ∧
    Emit marshal (Event e name) other channel result = Emit marshal e other channel result.
Proof.
  unfold Emit, subscribers, Event. simpl. rewrite lookup_insert_eq. simpl.
  split_and!; try done.
  intros other Hne. by rewrite lookup_insert_ne.
Qed.

(** X6: [Emit] on a channel that exists returns nil and writes one frame for
    each entry of the subscriber list of the channel, in the order of the
    list and to the connection of that entry; each frame is the encoding of
    the response that names the event and carries the result.  A session
    that is listed twice is written to twice, and the Session Registry is
    not consulted. *)
Theorem Emit_fans_out marshal e event channel result ev ch :
  Engine.Events e !! event = Some ev →
  Event.Channels ev !! channel = Some ch →
  let frame := marshal {| Response.ID := 0;
                          Response.Error := {| ResponseError.Code := 0;
                                               ResponseError.Message := "" |};
                          Response.Event := event;
                          Response.Result := result |} in
  (Emit marshal e event channel result).1 = None ∧
  written (Emit marshal e event channel result).2 =
    (λ v, (Session.websocket v, frame)) <$> Channel.Sessions ch ∧
  length (Emit marshal e event channel result).2 = length (subscribers e event channel) ∧
  ∀ sessions, Emit marshal (set_Sessions sessions e) event channel result =
              Emit marshal e event channel result.
Proof.
  intros Hev Hch frame. unfold Emit, subscribers. simpl. rewrite Hev, Hch. simpl.
  split_and!; try done.
  - induction (Channel.Sessions ch) as [|v vs IH]; [done|]. simpl. by f_equal.
  - by rewrite length_fmap.
Qed.

Lemma Emit_fans_out_witness :
  written (Emit demoMarshal demoChat "chat" "room2" (VString "hello")).2 =
  (λ v, (Session.websocket v,
         demoMarshal {| Response.ID := 0;
                        Response.Error := {| ResponseError.Code := 0;
                                             ResponseError.Message := "" |};
                        Response.Event := "chat";
                        Response.Result := VString "hello" |}))
  <$> [demoSubscriber 2 "u2"; demoSubscriber 3 "u3"].
Proof.
  apply (Emit_fans_out demoMarshal demoChat "chat" "room2" (VString "hello")
           {| Event.Name := "chat";
              Event.Channels :=
                {[ "room1" := {| Channel.Sessions := [demoSubscriber 1 "u1"; demoSubscriber 2 "u2"] |};
                   "room2" := {| Channel.Sessions := [demoSubscriber 2 "u2"; demoSubscriber 3 "u3"] |} ]} |}
           {| Channel.Sessions := [demoSubscriber 2 "u2"; demoSubscriber 3 "u3"] |});
    by vm_compute.
Defined.

(** ** Connections *)

(** X7: [connectHandler] stores the ID on the connection, leaves the other
    keys of the connection alone, and registers under the ID a session with
    empty [Keys] that writes to this connection.  [Len] grows by one when the
    ID is new; when the ID is registered already, the former session is
    overwritten and [Len] stays.  The other sessions are left as they
    were. *)
Theorem connectHandler_registers e s id :
  let '(e1, s1) := connectHandler e s id in
  melody.Get s1 "ID" = Some (VString id) ∧
  melody.conn s1 = melody.conn s ∧
  (∀ key, key ≠ "ID" → melody.Get s1 key = melody.Get s key) ∧
  Engine.Sessions e1 !! id =
    Some {| Session.ID := id; Session.websocket := melody.conn s; Session.Keys := ∅ |} ∧
  (∀ other, other ≠ id → Engine.Sessions e1 !! other = Engine.Sessions e !! other) ∧
  Len e1 = (if decide (is_Some (Engine.Sessions e !! id)) then Len e else Len e + 1).
Proof.
  simpl. split_and!; try done.
  - unfold melody.Get. simpl. by rewrite lookup_insert_eq.
  - intros key Hne. unfold melody.Get. simpl. by rewrite lookup_insert_ne.
  - by rewrite lookup_insert_eq.
  - intros other Hne. by rewrite lookup_insert_ne.
  - unfold Len. simpl. rewrite map_size_insert.
    case_decide as Hid.
    + destruct Hid as [sess ->]. done.
    + destruct (Engine.Sessions e !! id) as [sess|]; [by destruct Hid|]. lia.
Qed.

Lemma notify_served w n : served w → served (notify w n).
Proof.
  unfold served. intros Hw. destruct n as [c request uuid|c]; simpl; [|done].
  by rewrite Hw.
Qed.

Lemma serving_served e : served (serving e).
Proof. done. Qed.

(** The IDs of the registry after a run: those it had, and those drawn for
    the connections that were opened. *)
Lemma run_dom ns : ∀ w,
  served w →
  dom (Engine.Sessions (engine (run w ns))) =
    dom (Engine.Sessions (engine w)) ∪ list_to_set (uuids ns).
Proof.
  induction ns as [|n ns IH]; intros w Hw; simpl.
  - by rewrite (right_id_L ∅ (∪)).
  - rewrite (IH _ (notify_served w n Hw)).
    destruct n as [c request uuid|c]; simpl; [|done].
    unfold served in Hw. rewrite Hw. simpl. rewrite dom_insert_L.
    by rewrite (comm_L (∪) {[uuid]}), <-(assoc_L (∪)).
Qed.

(** X8: on an engine that is served, [Len] after any sequence of connects
    and disconnects is the number of sessions there were plus the number of
    connections that were opened, whether they are still open or not, as long
    as every connection draws an ID that was not drawn before. *)
Theorem Len_counts_connections_ever_opened e ns :
  NoDup (uuids ns) →
  (∀ uuid, uuid ∈ uuids ns → Engine.Sessions e !! uuid = None) →
  Len (engine (run (serving e) ns)) = Len e + Z.of_nat (length (uuids ns)).
Proof.
  intros Hnodup Hfresh. unfold Len.
  rewrite <-!(size_dom (D := gset string)).
  rewrite (run_dom ns (serving e) (serving_served e)). simpl.
  rewrite size_union.
  - rewrite size_list_to_set by done. lia.
  - intros uuid Hin Hdrawn. apply elem_of_list_to_set in Hdrawn.
    apply elem_of_dom in Hin as [sess Hsess]. by rewrite (Hfresh uuid Hdrawn) in Hsess.
Qed.

Lemma Len_counts_connections_ever_opened_witness :
  Len (engine (run (serving demoEngine)
                 [Connect 0 "/" "u0"; Disconnect 0; Connect 1 "/" "u1"; Disconnect 1])) = 2.
Proof.
  apply (Len_counts_connections_ever_opened demoEngine
           [Connect 0 "/" "u0"; Disconnect 0; Connect 1 "/" "u1"; Disconnect 1]).
  - apply (bool_decide_unpack _). by vm_compute.
  - intros uuid _. reflexivity.
Defined.

Lemma notify_resolves w n :
  served w → resolves w →
  (∀ uuid, uuid ∈ uuids [n] → Engine.Sessions (engine w) !! uuid = None) →
  resolves (notify w n).
Proof.
  intros Hserved Hw Hfresh. destruct n as [c request uuid|c]; simpl.
  - unfold served in Hserved. rewrite Hserved. simpl.
    assert (Hnew : Engine.Sessions (engine w) !! uuid = None)
      by (apply Hfresh; simpl; apply list_elem_of_here).
    intros c' s0 Hopen. simpl in Hopen.
    destruct (decide (c = c')) as [<-|Hne].
    + rewrite lookup_insert_eq in Hopen. injection Hopen as <-. split; [done|].
      eexists uuid, _. simpl. split_and!; [|by rewrite lookup_insert_eq|done|done].
      unfold melody.Get. simpl. by rewrite lookup_insert_eq.
    + rewrite lookup_insert_ne in Hopen by done.
      destruct (Hw c' s0 Hopen) as (Hconn & id & sess & Hid & Hsess & HID & Hws).
      split; [done|]. exists id, sess. simpl. split_and!; try done.
      rewrite lookup_insert_ne; [done|]. intros ->. by rewrite Hnew in Hsess.
  - intros c' s0 Hopen. simpl in Hopen.
    destruct (decide (c = c')) as [<-|Hne]; [by rewrite lookup_delete_eq in Hopen|].
    rewrite lookup_delete_ne in Hopen by done. by apply Hw.
Qed.

Lemma run_resolves ns : ∀ w,
  served w → resolves w →
  NoDup (uuids ns) →
  (∀ uuid, uuid ∈ uuids ns → Engine.Sessions (engine w) !! uuid = None) →
  resolves (run w ns).
Proof.
  induction ns as [|n ns IH]; intros w Hserved Hw Hnodup Hfresh; [done|].
  simpl. apply IH.
  - by apply notify_served.
  - apply notify_resolves; [done|done|].
    intros uuid Hin. apply Hfresh. destruct n; simpl in *; [|by apply elem_of_nil in Hin].
    apply elem_of_cons. left. by apply list_elem_of_singleton in Hin.
  - destruct n; simpl in Hnodup; [|done]. by apply NoDup_cons in Hnodup as [_ ?].
  - intros uuid' Hin. destruct n as [c request uuid|c]; simpl in *.
    + unfold served in Hserved. rewrite Hserved. simpl.
      apply NoDup_cons in Hnodup as [Hnotin _].
      rewrite lookup_insert_ne; [|by intros ->].
      apply Hfresh. by right.
    + by apply Hfresh.
Qed.

(** X9: on an engine that is served, after any sequence of connects and
    disconnects in which every connection draws an ID that was not drawn
    before, every open connection carries an ID under which the registry has
    a session, and that session has this ID and writes to this connection.
    So [messageHandler] finds the session of every open connection. *)
Theorem open_connections_resolve e ns :
  NoDup (uuids ns) →
  (∀ uuid, uuid ∈ uuids ns → Engine.Sessions e !! uuid = None) →
  resolves (run (serving e) ns).
Proof.
  intros Hnodup Hfresh. apply run_resolves; [done| |done|done].
  intros c s Hopen. done.
Qed.

Lemma open_connections_resolve_witness :
  resolves (run (serving demoEngine)
              [Connect 0 "/" "u0"; Connect 1 "/" "u1"; Disconnect 0]).
Proof.
  apply (open_connections_resolve demoEngine
           [Connect 0 "/" "u0"; Connect 1 "/" "u1"; Disconnect 0]).
  - apply (bool_decide_unpack _). by vm_compute.
  - intros uuid _. reflexivity.
Defined.

(** When two connections draw the same ID, the second session takes the
    place of the first: the first connection then resolves to a session that
    writes to the second connection. *)
Example same_uuid_crosses_connections :
  let w := run (serving demoEngine) [Connect 0 "/" "u0"; Connect 1 "/" "u0"] in
  (open w !! 0%nat ≫= λ s, melody.Get s "ID") = Some (VString "u0") ∧
  Session.websocket <$> Engine.Sessions (engine w) !! "u0" = Some 1%nat ∧
  Len (engine w) = 1.
Proof. by vm_compute. Qed.

(** ** Handling a message *)

Section MessageFacts.

Variable unmarshalRequest : list Byte.byte → Request.t + string.
Variable unmarshalKeys : list Byte.byte → H + string.
Variable marshal : Response.t → list Byte.byte.
Variable code : HandlerFunc → Context.t → list Action.

Abbreviation handle := (messageHandler unmarshalRequest unmarshalKeys marshal code).

(** X11: a frame that decodes, on a connection that carries no ID or whose
    ID is not in the Session Registry, is dropped: the engine is left as it
    was, nothing is written, no method is looked up and no handler runs. *)
Theorem unresolved_session_is_dropped e s msg req :
  unmarshalRequest msg = inl req →
  melody.Get s "ID" = None ∨
  (∃ id, melody.Get s "ID" = Some (VString id) ∧ Engine.Sessions e !! id = None) →
  ∃ tr, handle e s msg = Returned e tr ∧
        written tr = [] ∧ resolved tr = [] ∧ invoked tr = [].
Proof.
  intros Hreq Hs. unfold messageHandler. rewrite Hreq.
  destruct Hs as [->|(id & -> & ->)]; by eexists.
Qed.

(** X12: of two "MegoInitialize" requests on the same connection the second
    one decides: after both, the engine is the one that the second request
    alone would have left. *)
Theorem initialize_last_wins e s msg1 msg2 req1 req2 id sess keys1 keys2 :
  melody.Get s "ID" = Some (VString id) →
  Engine.Sessions e !! id = Some sess →
  unmarshalRequest msg1 = inl req1 → Request.Method req1 = "MegoInitialize" →
  unmarshalRequest msg2 = inl req2 → Request.Method req2 = "MegoInitialize" →
  unmarshalKeys (Request.Params req1) = inl keys1 →
  unmarshalKeys (Request.Params req2) = inl keys2 →
  ∃ e1 e2, handle e s msg1 = Returned e1 [ObsGetSession id] ∧
           handle e1 s msg2 = Returned e2 [ObsGetSession id] ∧
           handle e s msg2 = Returned e2 [ObsGetSession id] ∧
           Session.Keys <$> Engine.Sessions e2 !! id = Some keys2.
Proof.
  intros Hid Hsess Hreq1 Hm1 Hreq2 Hm2 Hk1 Hk2.
  rewrite (messageHandler_initialize _ _ _ _ e s msg1 req1 id sess) by done.
  rewrite (messageHandler_initialize _ _ _ _ e s msg2 req2 id sess) by done.
  unfold initialize. rewrite Hk1, Hk2. eexists _, _. split; [done|].
  rewrite (messageHandler_initialize _ _ _ _ _ s msg2 req2 id (set_Keys keys1 sess));
    [|done|done|apply lookup_insert_eq|done].
  unfold initialize. rewrite Hk2. simpl. unfold set_Sessions. simpl.
  rewrite insert_insert_eq. split_and!; [done|done|]. simpl. by rewrite lookup_insert_eq.
Qed.

(** X13: [messageHandler] reads the sessions, the methods and the global
    middleware of the engine and nothing else: engines that agree on these
    three give the same trace, the same panic and the same sessions, whatever
    their events, options and no-method chains are. *)
Theorem messageHandler_reads_only e1 e2 s msg :
  Engine.Sessions e1 = Engine.Sessions e2 →
  Engine.Methods e1 = Engine.Methods e2 →
  Engine.handlers e1 = Engine.handlers e2 →
  trace_of (handle e1 s msg) = trace_of (handle e2 s msg) ∧
  panic_of (handle e1 s msg) = panic_of (handle e2 s msg) ∧
  Engine.Sessions <$> engine_of (handle e1 s msg) =
    Engine.Sessions <$> engine_of (handle e2 s msg).
Proof.
  intros Hsessions Hmethods Hhandlers.
  assert (Hinit : ∀ id sess req tr,
    trace_of (initialize unmarshalKeys e1 id sess req tr) =
      trace_of (initialize unmarshalKeys e2 id sess req tr) ∧
    panic_of (initialize unmarshalKeys e1 id sess req tr) =
      panic_of (initialize unmarshalKeys e2 id sess req tr) ∧
    Engine.Sessions <$> engine_of (initialize unmarshalKeys e1 id sess req tr) =
      Engine.Sessions <$> engine_of (initialize unmarshalKeys e2 id sess req tr)).
  { intros. unfold initialize. destruct (unmarshalKeys _); simpl; by rewrite Hsessions. }
  assert (Hdisp : ∀ sess req tr,
    trace_of (dispatch marshal code e1 s sess req tr) =
      trace_of (dispatch marshal code e2 s sess req tr) ∧
    panic_of (dispatch marshal code e1 s sess req tr) =
      panic_of (dispatch marshal code e2 s sess req tr) ∧
    Engine.Sessions <$> engine_of (dispatch marshal code e1 s sess req tr) =
      Engine.Sessions <$> engine_of (dispatch marshal code e2 s sess req tr)).
  { intros. unfold dispatch, newContext. rewrite Hmethods, Hhandlers.
    destruct (Engine.Methods e2 !! Request.Method req) as [m|]; simpl;
      [|by rewrite Hsessions].
    case_decide; [|by simpl; rewrite Hsessions].
    destruct (call _ _ _ _ _); simpl; by rewrite ?Hsessions. }
  unfold messageHandler. destruct (unmarshalRequest msg) as [req|err];
    [|by simpl; rewrite Hsessions].
  destruct (melody.Get s "ID") as [[|?|id|?]|]; try (by simpl; rewrite Hsessions).
  rewrite Hsessions. destruct (Engine.Sessions e2 !! id) as [sess|];
    [|by simpl; rewrite Hsessions].
  by repeat case_decide.
Qed.

End MessageFacts.

Lemma unresolved_session_is_dropped_witness :
  ∃ tr, demoHandler demoEngine demoSession (demoFrame "Sum" 7 [Byte.x03; Byte.x04]) =
          Returned demoEngine tr ∧
        written tr = [] ∧ resolved tr = [] ∧ invoked tr = [].
Proof.
  apply (unresolved_session_is_dropped demoRequest demoKeys demoMarshal demoCode
           demoEngine demoSession (demoFrame "Sum" 7 [Byte.x03; Byte.x04])
           {| Request.Method := "Sum"; Request.ID := 7;
              Request.Params := [Byte.x03; Byte.x04] |}).
  - reflexivity.
  - right. exists "u0". split; reflexivity.
Defined.

Lemma initialize_last_wins_witness :
  ∃ e1 e2,
    demoHandler (engine demoWorld) demoSession
      (demoFrame "MegoInitialize" 1 [Byte.x61; Byte.x01]) = Returned e1 [ObsGetSession "u0"] ∧
    demoHandler e1 demoSession
      (demoFrame "MegoInitialize" 2 [Byte.x62; Byte.x02]) = Returned e2 [ObsGetSession "u0"] ∧
    demoHandler (engine demoWorld) demoSession
      (demoFrame "MegoInitialize" 2 [Byte.x62; Byte.x02]) = Returned e2 [ObsGetSession "u0"] ∧
    Session.Keys <$> Engine.Sessions e2 !! "u0" = Some {["b" := VInt 2]}.
Proof.
  apply (initialize_last_wins demoRequest demoKeys demoMarshal demoCode
           (engine demoWorld) demoSession
           (demoFrame "MegoInitialize" 1 [Byte.x61; Byte.x01])
           (demoFrame "MegoInitialize" 2 [Byte.x62; Byte.x02])
           {| Request.Method := "MegoInitialize"; Request.ID := 1;
              Request.Params := [Byte.x61; Byte.x01] |}
           {| Request.Method := "MegoInitialize"; Request.ID := 2;
              Request.Params := [Byte.x62; Byte.x02] |}
           "u0" (demoSubscriber 0 "u0") {["a" := VInt 1]} {["b" := VInt 2]});
    by vm_compute.
Defined.

Lemma messageHandler_reads_only_witness :
  trace_of (demoHandler (NoMethod demoChat [2%nat]) demoSession (demoFrame "Sum" 7 [])) =
  trace_of (demoHandler (engine demoWorld) demoSession (demoFrame "Sum" 7 [])).
Proof.
  apply (messageHandler_reads_only demoRequest demoKeys demoMarshal demoCode
           (NoMethod demoChat [2%nat]) (engine demoWorld) demoSession (demoFrame "Sum" 7 []));
    reflexivity.
Defined.

(** ** From the transport to the handlers *)

(** Notifications of the transport change the sessions only. *)
Lemma run_keeps_setup ns : ∀ w,
  set_Sessions (Engine.Sessions (engine w)) (engine (run w ns)) = engine w.
Proof.
  induction ns as [|n ns IH]; intros w; simpl.
  - by destruct (engine w).
  - specialize (IH (notify w n)).
    destruct n as [c request uuid|c]; simpl in *; [|done].
    destruct (melody.connectHandler _) as [[]|]; simpl in *; [|done].
    destruct (engine (run _ ns)), (engine w). simpl in *. by simplify_eq.
Qed.

(** X14: on an engine that is served, after any sequence of connects and
    disconnects with IDs that were not drawn before, a request on an open
    connection for a name other than "MegoInitialize" goes to the look-up of
    the method with a session that writes to that very connection; the
    methods and the middleware are those that were set up before the engine
    was served. *)
Theorem open_connection_reaches_dispatch
  unmarshalRequest unmarshalKeys marshal code e ns c s msg req :
  NoDup (uuids ns) →
  (∀ uuid, uuid ∈ uuids ns → Engine.Sessions e !! uuid = None) →
  open (run (serving e) ns) !! c = Some s →
  unmarshalRequest msg = inl req →
  Request.Method req ≠ "MegoInitialize" →
  let e' := engine (run (serving e) ns) in
  Engine.Methods e' = Engine.Methods e ∧ Engine.handlers e' = Engine.handlers e ∧
  ∃ id sess,
    Engine.Sessions e' !! id = Some sess ∧ Session.websocket sess = c ∧
    messageHandler unmarshalRequest unmarshalKeys marshal code e' s msg =
      dispatch marshal code e' s sess req [ObsGetSession id].
Proof.
  intros Hnodup Hfresh Hopen Hreq Hinit e'.
  pose proof (run_keeps_setup ns (serving e)) as Hsetup. fold e' in Hsetup.
  split_and!.
  - exact (f_equal Engine.Methods Hsetup).
  - exact (f_equal Engine.handlers Hsetup).
  - destruct (run_resolves ns (serving e)) with (c := c) (s := s)
      as (_ & id & sess & Hid & Hsess & _ & Hws); try done.
    exists id, sess. split_and!; [done|done|].
    by apply messageHandler_dispatch.
Qed.

Lemma open_connection_reaches_dispatch_witness :
  ∃ id sess,
    Engine.Sessions (engine (run (serving demoEngine) [Connect 0 "/" "u0"])) !! id = Some sess ∧
    Session.websocket sess = 0%nat ∧
    demoHandler (engine (run (serving demoEngine) [Connect 0 "/" "u0"])) demoSession
      (demoFrame "Sum" 7 []) =
    dispatch demoMarshal demoCode (engine (run (serving demoEngine) [Connect 0 "/" "u0"]))
      demoSession sess
      {| Request.Method := "Sum"; Request.ID := 7; Request.Params := [] |}
      [ObsGetSession id].
Proof.
  destruct (open_connection_reaches_dispatch demoRequest demoKeys demoMarshal demoCode
              demoEngine [Connect 0 "/" "u0"] 0%nat demoSession (demoFrame "Sum" 7 [])
              {| Request.Method := "Sum"; Request.ID := 7; Request.Params := [] |})
    as (_ & _ & Hdispatch).
  - apply (bool_decide_unpack _). by vm_compute.
  - intros uuid _. reflexivity.
  - by vm_compute.
  - reflexivity.
  - discriminate.
  - exact Hdispatch.
Defined.

(** ** The example program *)

(** X15: the engine of [examples/basic] listens on ":5000" (no port is given
    to [Run]).  Whatever connections have come and gone, a "Sum" request of a
    client with a session looks the method up and enters the handler of
    [main] first, at index 0; a request for any other name than "Sum" and
    "MegoInitialize" dereferences the nil method and panics. *)
Theorem main_knows_only_Sum unmarshalRequest unmarshalKeys marshal code ns s msg req id sess :
  let e := engine (run {| engine := main.1; open := ∅ |} ns) in
  unmarshalRequest msg = inl req →
  melody.Get s "ID" = Some (VString id) →
  Engine.Sessions e !! id = Some sess →
  Request.Method req ≠ "MegoInitialize" →
  main.2 = ":5000" ∧
  (Request.Method req = "Sum" →
   ∃ tr, messageHandler unmarshalRequest unmarshalKeys marshal code e s msg =
         Returned e ([ObsGetSession id; ObsGetMethod "Sum"; ObsInvoke 0 mainSum] ++ tr)) ∧
  (Request.Method req ≠ "Sum" →
   messageHandler unmarshalRequest unmarshalKeys marshal code e s msg =
   Panicked NilDereference e [ObsGetSession id; ObsGetMethod (Request.Method req)]).
Proof.
  intros e Hreq Hid Hsess Hinit.
  pose proof (run_keeps_setup ns {| engine := main.1; open := ∅ |}) as Hsetup.
  fold e in Hsetup.
  pose proof (f_equal Engine.Methods Hsetup) as Hmethods.
  pose proof (f_equal Engine.handlers Hsetup) as Hhandlers.
  simpl in Hmethods, Hhandlers.
  rewrite (messageHandler_dispatch _ unmarshalKeys marshal code e s msg req id sess) by done.
  split_and!; [done| |].
  - intros Hsum.
    destruct (dispatch_registered marshal code e s sess req [ObsGetSession id]
                {| Method.Name := "Sum"; Method.Handlers := [mainSum];
                   Method.Processor := None; Method.Option := None |})
      as [[Hnil _]|(st & Hcall & ->)].
    + rewrite Hmethods, Hsum. apply lookup_insert_eq.
    + simpl in Hnil. by rewrite Hhandlers in Hnil.
    + destruct (call_enters marshal code _ _ _ _ mainSum Hcall) as [tr Htr].
      { simpl. by rewrite Hhandlers. }
      exists tr. rewrite Htr. simpl. by rewrite Hsum.
  - intros Hother. apply dispatch_unregistered.
    rewrite Hmethods. by rewrite lookup_insert_ne.
Qed.

Lemma main_knows_only_Sum_witness :
  demoHandler (engine (run {| engine := main.1; open := ∅ |} [Connect 0 "/" "u0"]))
    demoSession (demoFrame "Mul" 7 [Byte.x03; Byte.x04]) =
  Panicked NilDereference
    (engine (run {| engine := main.1; open := ∅ |} [Connect 0 "/" "u0"]))
    [ObsGetSession "u0"; ObsGetMethod "Mul"].
Proof.
  destruct (main_knows_only_Sum demoRequest demoKeys demoMarshal demoCode
              [Connect 0 "/" "u0"] demoSession (demoFrame "Mul" 7 [Byte.x03; Byte.x04])
              {| Request.Method := "Mul"; Request.ID := 7;
                 Request.Params := [Byte.x03; Byte.x04] |}
              "u0" (demoSubscriber 0 "u0"))
    as (_ & _ & Hother); [reflexivity|reflexivity|by vm_compute|discriminate|].
  apply Hother. discriminate.
Defined.

(** ** Status codes *)

(** X16: the status codes keep to the bands that the comment of the const
    block gives them, 0 to 50 for the codes of success and 51 to 100 for the
    codes of errors, and no two codes are the same number. *)
Theorem status_codes_keep_their_bands :
  Forall (λ c, 0 ≤ c ≤ 50) successCodes ∧
  Forall (λ c, 51 ≤ c ≤ 100) errorCodes ∧
  NoDup (successCodes ++ errorCodes).
Proof.
  split_and!.
  - repeat constructor; unfold StatusOK, StatusProcessing, StatusNoChanges,
      StatusFileNext, StatusFileAbort; lia.
  - repeat constructor; unfold StatusError, StatusFull, StatusExists, StatusInvalid,
      StatusNotFound, StatusNotAuthorized, StatusNoPermission, StatusUnimplemented,
      StatusTooManyRequests, StatusResourceExhausted, StatusBusy, StatusFileRetry,
      StatusFileEmpty, StatusFileTooLarge; lia.
  - apply (bool_decide_unpack _). by vm_compute.
Qed.

(** * The array behind the middleware *)

(** Right after [append] the slice holds the elements of the window followed
    by the appended ones, wherever [append] has put them. *)
Lemma appendShared_elements mw spare hs :
  elements mw (appendShared mw spare hs).2 (appendShared mw spare hs).1 =
  Some <$> (mw ++ hs).
Proof.
  unfold appendShared. case_decide; simpl; [|done].
  rewrite fmap_app. f_equal. apply take_app_length'. by rewrite length_fmap.
Qed.

(** With room behind the window [append] writes there; without, it leaves the
    array alone.  The array keeps its size either way. *)
Lemma appendShared_spare mw spare hs :
  ((length hs ≤ length spare)%nat →
   appendShared mw spare hs = (Shared (length hs), (Some <$> hs) ++ drop (length hs) spare)) ∧
  ((length spare < length hs)%nat →
   appendShared mw spare hs = (Fresh (mw ++ hs), spare)) ∧
  length (appendShared mw spare hs).2 = length spare.
Proof.
  unfold appendShared. split_and!.
  - intros Hroom. by rewrite decide_True.
  - intros Hroom. rewrite decide_False; [done|lia].
  - case_decide; simpl; [|done].
    rewrite length_app, length_fmap, length_drop. lia.
Qed.


Section SharedFacts.

Variable unmarshalRequest : list Byte.byte → Request.t + string.
Variable unmarshalKeys : list Byte.byte → H + string.
Variable marshal : Response.t → list Byte.byte.
Variable code : HandlerFunc → Context.t → list Action.

Abbreviation handleShared :=
  (messageHandlerShared unmarshalRequest unmarshalKeys marshal code).

Lemma dispatchShared_outcome e s sess req tr spare :
  (dispatchShared marshal code e s sess req tr spare).1 =
  dispatch marshal code e s sess req tr.
Proof.
  unfold dispatchShared, dispatch.
  destruct (Engine.Methods e !! Request.Method req) as [m|]; [|done].
  pose proof (appendShared_elements
                (Context.handlers (newContext e s sess (Some m) req)) spare
                (Method.Handlers m)) as Helements.
  destruct (appendShared _ spare (Method.Handlers m)) as [sl spare'].
  simpl in Helements. simpl. unfold execute. simpl. rewrite Helements.
  by rewrite mapM_fmap_Some.
Qed.

(** One call of [messageHandler] ends the same way whatever the array behind
    [e.handlers] holds and whichever way [append] goes. *)
Lemma messageHandlerShared_outcome e s msg spare :
  (handleShared e s msg spare).1 =
  messageHandler unmarshalRequest unmarshalKeys marshal code e s msg.
Proof.
  unfold messageHandlerShared, messageHandler.
  destruct (unmarshalRequest msg) as [req|err]; [|done].
  destruct (melody.Get s "ID") as [[|?|id|?]|]; try done.
  destruct (Engine.Sessions e !! id) as [sess|]; [|done].
  repeat case_decide; try done; apply dispatchShared_outcome.
Qed.

(** What a call that reaches the look-up of a registered method leaves in
    the array: what [append] has written. *)
Lemma messageHandlerShared_spare e s msg spare req id sess m :
  unmarshalRequest msg = inl req →
  melody.Get s "ID" = Some (VString id) →
  Engine.Sessions e !! id = Some sess →
  Request.Method req ≠ "MegoInitialize" →
  Engine.Methods e !! Request.Method req = Some m →
  (handleShared e s msg spare).2 =
  (appendShared (Engine.handlers e) spare (Method.Handlers m)).2.
Proof.
  intros Hreq Hid Hsess Hinit Hm. unfold messageHandlerShared.
  rewrite Hreq, Hid, Hsess. rewrite !decide_False by done.
  assert (Hd : (dispatchShared marshal code e s sess req [ObsGetSession id] spare).2 =
               (appendShared (Engine.handlers e) spare (Method.Handlers m)).2).
  { unfold dispatchShared. rewrite Hm. simpl.
    by destruct (appendShared (Engine.handlers e) spare (Method.Handlers m)). }
  by case_decide.
Qed.


End SharedFacts.



(** Two dispatches that overlap: the context of a request for "M" is built,
    then the context of a request for "N", both by [append] to the window of
    [e.handlers] on an array with one more slot; when the chain of the first
    context is run it ends with the handler of "N". *)
Example overlapping_dispatch_runs_other_method :
  let ctx := newContext demoShared demoSession (demoSubscriber 0 "u0")
               (Engine.Methods demoShared !! "M")
               {| Request.Method := "M"; Request.ID := 9; Request.Params := [] |} in
  let '(slM, spare1) := appendShared (Engine.handlers demoShared) [None] [7%nat] in
  let '(slN, spare2) := appendShared (Engine.handlers demoShared) spare1 [0%nat] in
  invoked (trace_of (execute demoMarshal demoCode demoShared ctx slM spare1 [])) =
    [(0, 4); (1, 5); (2, 6); (3, 7)]%nat ∧
  invoked (trace_of (execute demoMarshal demoCode demoShared ctx slM spare2 [])) =
    [(0, 4); (1, 5); (2, 6); (3, 0)]%nat.
Proof. by vm_compute. Qed.

